(** * A shallow embedding of [term.py], the terminal buffer emulator

    The Python classes [Terminal] and [VT100] are embedded as pure functions
    over an explicit terminal record.  Every method that can raise a Python
    exception returns a [result]; the two exceptions that the code can raise
    on text input ([TypeError] from [int + None], [IndexError] from list
    subscripts) are the constructors of [exn].

    Conventions of the embedding:
    - Python integers are [Z]; list subscripts follow Python's rules for
      negative indices (module [Py]);
    - text is a list of 8-bit characters (the script is a Python 2 program,
      where [\d] and [isdigit] are the ASCII digits); the utf8 decoding of
      byte input happens before the embedded code and is not modelled;
    - the [debug] flag only prints, so it is left out of the record;
    - an exception aborts the call: the partially updated object is not
      observed afterwards. *)

From Stdlib Require Import ZArith Ascii String.
From stdpp Require Import base tactics option list numbers strings gmap.

Local Open Scope Z_scope.
Local Open Scope char_scope.

(** ** Exceptions and the result monad *)

Inductive exn : Type := TypeError | IndexError.

Inductive result (A : Type) : Type :=
| Ok (a : A)
| Raise (e : exn).
Arguments Ok {A} a.
Arguments Raise {A} e.

#[global] Instance result_ret : MRet result := fun A a => Ok a.
#[global] Instance result_bind : MBind result := fun A B f m =>
  match m with
  | Ok a => f a
  | Raise e => Raise e
  end.

(** ** Python list primitives *)

Module Py.

(** Position denoted by subscript [k] in a list of length [n]:
    [0 .. n-1] as they are, [-n .. -1] counted from the end,
    anything else is out of range. *)
Definition index (len : nat) (k : Z) : option nat :=
  let n := Z.of_nat len in
  if bool_decide (0 ≤ k < n) then Some (Z.to_nat k)
  else if bool_decide (- n ≤ k < 0) then Some (Z.to_nat (n + k))
  else None.

(** [l[k]] *)
Definition getitem {A} (l : list A) (k : Z) : result A :=
  match index (length l) k with
  | Some i => match l !! i with Some x => Ok x | None => Raise IndexError end
  | None => Raise IndexError
  end.

(** [l[k] = v] *)
Definition setitem {A} (l : list A) (k : Z) (v : A) : result (list A) :=
  match index (length l) k with
  | Some i => Ok (<[i:=v]> l)
  | None => Raise IndexError
  end.

(** [del l[k]] *)
Definition del {A} (l : list A) (k : Z) : result (list A) :=
  match index (length l) k with
  | Some i => Ok (delete i l)
  | None => Raise IndexError
  end.

(** [l.insert(k, x)]: a negative [k] counts from the end, and the
    position is clipped to [0 .. len(l)]; never raises. *)
Definition insert {A} (l : list A) (k : Z) (x : A) : list A :=
  let n := Z.of_nat (length l) in
  let i := Z.to_nat (if bool_decide (k < 0) then Z.max 0 (n + k) else Z.min k n) in
  take i l ++ x :: drop i l.

(** [range(a, b)] *)
Definition range (a b : Z) : list Z := seqZ a (b - a).

(** [[x] * n] *)
Definition times {A} (x : A) (n : Z) : list A := replicate (Z.to_nat n) x.

(** [x or 1] on integers: zero is falsy. *)
Definition or1 (x : Z) : Z := if bool_decide (x = 0) then 1 else x.

End Py.

(** ** The terminal object *)

Abbreviation text := (list ascii).

Definition ESC : ascii := "027".
Definition BS : ascii := "008".
Definition CR : ascii := "013".
Definition LF : ascii := "010".
Definition BEL : ascii := "007".
Definition SP : ascii := " ".

Record Terminal : Type := mkTerminal {
  cols : Z;
  rows : Z;
  scroll : Z * Z;
  row : Z;
  col : Z;
  pending : text;
  buf : list (list ascii)   (* chars are stored at buf[row-1][col-1] *)
}.

Definition with_buf (b : list (list ascii)) (t : Terminal) : Terminal :=
  mkTerminal (cols t) (rows t) (scroll t) (row t) (col t) (pending t) b.
Definition with_cursor (r c : Z) (t : Terminal) : Terminal :=
  mkTerminal (cols t) (rows t) (scroll t) r c (pending t) (buf t).
Definition with_col (c : Z) (t : Terminal) : Terminal :=
  with_cursor (row t) c t.
Definition with_scroll (s : Z * Z) (t : Terminal) : Terminal :=
  mkTerminal (cols t) (rows t) s (row t) (col t) (pending t) (buf t).
Definition with_pending (p : text) (t : Terminal) : Terminal :=
  mkTerminal (cols t) (rows t) (scroll t) (row t) (col t) p (buf t).

Definition blank_line (t : Terminal) : list ascii := Py.times SP (cols t).

(** [Terminal.reset]: [[[' '] * cols for i in range(rows)]] *)
Definition reset (t : Terminal) : Terminal :=
  with_buf (replicate (Z.to_nat (rows t)) (blank_line t)) t.

(** [Terminal.__init__] (and [VT100.__init__], which only adds the table) *)
Definition init (cols rows : Z) : Terminal :=
  reset (mkTerminal cols rows (1, rows) 1 1 [] []).

(** Monadic loops: [for x in l: body(x)] and [for i in range(n): body()]. *)
Fixpoint forM {A} (l : list A) (body : A → Terminal → result Terminal)
    (t : Terminal) : result Terminal :=
  match l with
  | [] => Ok t
  | x :: l' => t' ← body x t; forM l' body t'
  end.

Fixpoint timesM (n : nat) (body : Terminal → result Terminal)
    (t : Terminal) : result Terminal :=
  match n with
  | O => Ok t
  | S n' => t' ← body t; timesM n' body t'
  end.

(** [Terminal.del_lines] *)
Definition del_lines (num : Z) (r : option Z) (t : Terminal) : result Terminal :=
  let r := default (row t) r in
  timesM (Z.to_nat num)
    (fun t =>
       b ← Py.del (buf t) (r - 1);
       Ok (with_buf (Py.insert b (snd (scroll t) - 1) (blank_line t)) t))
    t.

(** [Terminal.move] *)
Definition move (r c : option Z) (rel : bool) (t : Terminal) : result Terminal :=
  rc ← (if rel then
          match r, c with
          | Some dr, Some dc => Ok (Py.or1 (row t + dr), Py.or1 (col t + dc))
          | _, _ => Raise TypeError      (* int + None *)
          end
        else Ok (default (row t) r, default (col t) c));
  let '(r, c) := rc in
  let '(r, c) := if bool_decide (c > cols t) then (r + 1, 1) else (r, c) in
  let '(r, c) := if bool_decide (c < 1) then (r - 1, cols t) else (r, c) in
  let '(start, end_) := scroll t in
  let r := if bool_decide (r < start) then start else r in
  if bool_decide (r > end_) then
    t' ← del_lines 1 (Some (start - 1)) t;
    Ok (with_cursor end_ c t')
  else Ok (with_cursor r c t).

(** [Terminal.rel] *)
Definition rel (r c : option Z) (t : Terminal) : result Terminal :=
  move r c true t.

(** [Terminal.puts] *)
Definition puts (s : text) (mv : bool) (t : Terminal) : result Terminal :=
  forM s
    (fun ch t =>
       line ← Py.getitem (buf t) (row t - 1);
       line' ← Py.setitem line (col t - 1) ch;
       b ← Py.setitem (buf t) (row t - 1) line';
       let t := with_buf b t in
       if mv then move (Some (row t)) (Some (col t + 1)) false t else Ok t)
    t.

(** [Terminal.erase] *)
Definition erase (start end_ : Z * Z) (t : Terminal) : result Terminal :=
  let save := (row t, col t) in
  t' ← forM (Py.range (fst start) (fst end_))
       (fun r => forM (Py.range (snd start) (snd end_))
          (fun c t => t1 ← move (Some r) (Some c) false t; puts [SP] true t1))
       t;
  Ok (with_cursor (fst save) (snd save) t').

(** [VT100.set_scroll] *)
Definition set_scroll (start end_ : Z) (t : Terminal) : Terminal :=
  with_scroll (start, end_) t.

(** [Terminal.dump] *)
Definition dump (t : Terminal) : text :=
  concat (map (fun line => line ++ [LF]) (buf t)).

(** ** The escape-sequence table of [VT100]

    The regular expressions of the table are built from four kinds of
    pieces, and every piece that repeats is followed by a literal that the
    repetition cannot match, so that the greedy reading below finds exactly
    the match that Python's backtracking [re.match] finds. *)

Inductive piece : Type :=
| Lit (c : ascii)            (* an escaped literal, e.g. [\[] *)
| OneOf (cs : list ascii)    (* a class of literals, e.g. [[Hf]] *)
| Digits                     (* the group [(\d+)] *)
| DigitsSemiOpt.             (* the optional group [([\d;]+)?] *)

Definition isdigit_char (c : ascii) : bool :=
  let n := nat_of_ascii c in (48 <=? n)%nat && (n <=? 57)%nat.

Fixpoint span (p : ascii → bool) (s : text) : text * text :=
  match s with
  | c :: s' => if p c then let '(a, b) := span p s' in (c :: a, b) else ([], s)
  | [] => ([], [])
  end.

(** [r.match(context)]: on success the matched text [m.group()] and the
    groups [m.groups()], where a group that took no part is [None]. *)
Fixpoint re_match (r : list piece) (s : text) : option (text * list (option text)) :=
  match r with
  | [] => Some ([], [])
  | Lit c :: r' =>
      match s with
      | c' :: s' =>
          if Ascii.eqb c c' then
            '(m, gs) ← re_match r' s'; Some (c' :: m, gs)
          else None
      | [] => None
      end
  | OneOf cs :: r' =>
      match s with
      | c' :: s' =>
          if existsb (Ascii.eqb c') cs then
            '(m, gs) ← re_match r' s'; Some (c' :: m, gs)
          else None
      | [] => None
      end
  | Digits :: r' =>
      let '(ds, s') := span isdigit_char s in
      match ds with
      | [] => None
      | _ => '(m, gs) ← re_match r' s'; Some (ds ++ m, Some ds :: gs)
      end
  | DigitsSemiOpt :: r' =>
      let '(ds, s') := span (fun c => isdigit_char c || Ascii.eqb c ";") s in
      '(m, gs) ← re_match r' s';
      Some (ds ++ m, (match ds with [] => None | _ => Some ds end) :: gs)
  end.

(** [re.compile(re.escape(s))] *)
Definition escape (s : string) : list piece := map Lit (list_ascii_of_string s).

(** [d.isdigit()] and [int(d)] on a decimal numeral *)
Definition isdigit (d : text) : bool :=
  match d with [] => false | _ => forallb isdigit_char d end.

Definition int (d : text) : Z :=
  fold_left (fun acc c => 10 * acc + (Z.of_nat (nat_of_ascii c) - 48)) d 0.

(** [intgroups]: [[int(d) for d in m.groups() if d and d.isdigit()]] *)
Definition intgroups (groups : list (option text)) : list Z :=
  omap (fun g => match g with
                 | Some d => if isdigit d then Some (int d) else None
                 | None => None
                 end) groups.

Definition handler := list Z → Terminal → result Terminal.

(** A handler that receives the integer groups [g] and reads [g[0]], [g[1]]. *)
Definition with_g0 (f : Z → Terminal → result Terminal) : handler :=
  fun g t => g0 ← Py.getitem g 0; f g0 t.
Definition with_g01 (f : Z → Z → Terminal → result Terminal) : handler :=
  fun g t => g0 ← Py.getitem g 0; g1 ← Py.getitem g 1; f g0 g1 t.

Definition REGEX : list (list piece * option handler) :=
  [ (* cursor motion *)
    ([Lit "["; Digits; Lit "A"], Some (with_g0 (fun n => rel (Some (- n)) (Some 0))));
    ([Lit "["; Digits; Lit "B"], Some (with_g0 (fun n => rel (Some n) (Some 0))));
    ([Lit "["; Digits; Lit "C"], Some (with_g0 (fun n => rel (Some 0) (Some n))));
    ([Lit "["; Digits; Lit "D"], Some (with_g0 (fun n => rel (Some 0) (Some (- n)))));
    ([Lit "["; Digits; Lit ";"; Digits; OneOf ["H"; "f"]],
       Some (with_g01 (fun a b => move (Some a) (Some b) false)));
    (* set scrolling region *)
    ([Lit "["; Digits; Lit ";"; Digits; Lit "r"],
       Some (with_g01 (fun a b t => Ok (set_scroll a b t))));
    (* remove lines from cursor *)
    ([Lit "["; Digits; Lit "M"], Some (with_g0 (fun n => del_lines n None)));
    (* erase from cursor to end of screen *)
    ([Lit "["; Lit "0"; Lit "?"; Lit "J"],
       Some (fun _ t => erase (row t, col t) (rows t, cols t) t));
    (* noop *)
    ([Lit "["; Lit "?"; Digits; Lit "h"], None);
    ([Lit "["; DigitsSemiOpt; Lit "m"], None) ].

Definition SIMPLE : list (string * option (Terminal → result Terminal)) :=
  [ ("[A"%string, Some (rel (Some (-1)) None));
    ("[B"%string, Some (rel (Some 1) None));
    ("[C"%string, Some (rel None (Some 1)));
    ("[D"%string, Some (rel None (Some 1)));
    ("[H"%string, Some (move (Some 1) (Some 1) false));
    ("[2J"%string, Some (fun t => Ok (reset t)));
    ("[K"%string, Some (fun t => erase (row t, col t) (row t + 1, cols t) t));
    ("[M"%string, Some (fun t => del_lines 1 (Some (row t + 1)) t));
    (* noop *)
    (">"%string, None);
    ("<"%string, None);
    ("[?1l"%string, None);
    ("="%string, None) ].

(** [self.control] after [VT100.__init__]: the [REGEX] rules, then the
    [SIMPLE] ones, each wrapped to ignore the groups. *)
Definition control : list (list piece * option handler) :=
  REGEX ++
  map (fun '(s, func) => (escape s, (fun f => (fun _ => f) : handler) <$> func)) SIMPLE.

(** The inner [call] of [VT100.sequence]. *)
Definition call (func : option handler) (s : text) (groups : list Z)
    (t : Terminal) : result (nat * Terminal) :=
  match func with
  | Some f => t' ← f groups t; Ok (length s, t')
  | None => Ok (length s, t)
  end.

Fixpoint first_match (rules : list (list piece * option handler)) (context : text)
    (t : Terminal) : result (nat * Terminal) :=
  match rules with
  | [] => Ok (0%nat, t)
  | (r, func) :: rules' =>
      match re_match r context with
      | Some (m, gs) =>
          '(n, t') ← call func m (intgroups gs) t; Ok (S n, t')
      | None => first_match rules' context t
      end
  end.

(** [VT100.sequence]: the number of characters consumed, [0] when the
    context is empty or no rule matches. *)
Definition sequence (data : text) (i : nat) (t : Terminal) : result (nat * Terminal) :=
  let context := take 9 (drop (S i) data) in
  match context with
  | [] => Ok (0%nat, t)
  | _ => first_match control context t
  end.

(** [Terminal.pre]: [Some n] for a returned integer, [None] for [None]. *)
Definition pre (data : text) (i : nat) (t : Terminal) : result (option nat * Terminal) :=
  b ← Py.getitem data (Z.of_nat i);
  if Ascii.eqb b ESC then
    '(n, t') ← sequence data i t; Ok (Some n, t')
  else if Ascii.eqb b BS then
    t1 ← puts [SP] false (with_col (Z.max 0 (col t - 1)) t);
    Ok (Some 1%nat, t1)
  else if Ascii.eqb b CR then
    t1 ← move None (Some 1) false t; Ok (Some 1%nat, t1)
  else if Ascii.eqb b LF then
    t1 ← move (Some (row t + 1)) (Some 1) false t; Ok (Some 1%nat, t1)
  else if Ascii.eqb b BEL then
    Ok (Some 1%nat, t)
  else Ok (None, t).

(** The [while i < len(data)] loop of [Terminal.append].  [n] counts the
    positions [i, i+1, ..] that are still inside [data], and [skip] the
    positions that [i += pre] jumps over, so the loop body runs exactly at
    the indices the Python loop visits. *)
Fixpoint scan (data : text) (n : nat) (i : nat) (skip : nat)
    (t : Terminal) : result Terminal :=
  match n with
  | O => Ok t
  | S n' =>
      match skip with
      | S k => scan data n' (S i) k t
      | O =>
          '(p, t1) ← pre data i t;
          match p with
          | Some O =>
              if bool_decide (Z.of_nat i > Z.of_nat (length data) - 8) then
                (* we might need more data to complete the sequence *)
                Ok (with_pending (drop i data) t1)
              else
                (* looks like we don't know how to read this sequence *)
                scan data n' (S i) 0%nat t1
          | Some (S k) => scan data n' (S i) k t1
          | None =>
              ch ← Py.getitem data (Z.of_nat i);
              t2 ← puts [ch] true t1;
              scan data n' (S i) 0%nat t2
          end
      end
  end.

(** [Terminal.append] on text. *)
Definition append (chunk : text) (t : Terminal) : result Terminal :=
  let data := pending t ++ chunk in
  scan data (length data) 0%nat 0%nat (with_pending [] t).

(** Feeding several chunks, one [append] call each. *)
Definition feed (chunks : list text) (t : Terminal) : result Terminal :=
  foldl (fun acc chunk => acc ≫= append chunk) (Ok t) chunks.

Definition str (s : string) : text := list_ascii_of_string s.

(** ** The key map of [VT100] *)

Module VT100.

(** [VT100.KEYMAP], a dict from key names to the text a terminal sends. *)
Definition KEYMAP : gmap string string :=
  list_to_map
    [ ("backspace", String BS EmptyString);
      ("enter", String LF EmptyString);
      ("escape", String ESC EmptyString);
      ("space", " ");
      ("up", String ESC "[A");
      ("down", String ESC "[B");
      ("right", String ESC "[C");
      ("left", String ESC "[D") ]%string.

(** [VT100.map]: [cls.KEYMAP.get(key, key)] *)
Definition map (key : string) : string := default key (KEYMAP !! key).

End VT100.

(** ** Observations *)

(** The cell at 1-based position [(r, c)]. *)
Definition cell (t : Terminal) (r c : Z) : option ascii :=
  line ← buf t !! Z.to_nat (r - 1); line !! Z.to_nat (c - 1).

(** The buffer of [t] is a [rs] by [cs] grid, and [t] knows it. *)
Definition grid_ok (cs rs : Z) (t : Terminal) : Prop :=
  cols t = cs ∧ rows t = rs ∧
  length (buf t) = Z.to_nat rs ∧
  Forall (fun line => length line = Z.to_nat cs) (buf t).

(** [b[i][j] = ch] for positions inside [b]. *)
Definition set_cell (b : list (list ascii)) (i j : nat) (ch : ascii) :
    list (list ascii) :=
  match b !! i with
  | Some line => <[i := <[j := ch]> line]> b
  | None => b
  end.

(** What a call leaves alone apart from the cursor and the cells. *)
Definition frame (t t' : Terminal) : Prop :=
  cols t' = cols t ∧ rows t' = rows t ∧
  scroll t' = scroll t ∧ pending t' = pending t.

(** A handler of the table keeps the grid a [rs] by [cs] grid. *)
Definition preserves (cs rs : Z) (h : handler) : Prop :=
  ∀ g t t', grid_ok cs rs t → h g t = Ok t' → grid_ok cs rs t'.

(** Characters that [pre] hands back to [append] as plain text. *)
Definition plain (c : ascii) : Prop :=
  c ≠ ESC ∧ c ≠ BS ∧ c ≠ CR ∧ c ≠ LF ∧ c ≠ BEL.

(** * Properties *)

(** ** The result monad *)

Lemma bind_Ok {A B} (m : result A) (f : A → result B) (b : B) :
  m ≫= f = Ok b ↔ ∃ a, m = Ok a ∧ f a = Ok b.
Proof.
  destruct m as [a|e]; simpl; split.
  - intros H. by exists a.
  - by intros (a' & [= ->] & H).
  - intros H. discriminate H.
  - by intros (a' & H & _).
Qed.

Ltac inv_bind H :=
  repeat match type of H with
         | _ ≫= _ = Ok _ =>
             let x := fresh "x" in
             let Hx := fresh "Hx" in
             apply bind_Ok in H as (x & Hx & H)
         end.

(** ** Python subscripts *)

Lemma index_Some len k i :
  Py.index len k = Some i → (i < len)%nat.
Proof.
  unfold Py.index; cbv zeta.
  repeat case_bool_decide; intros [= <-]; lia.
Qed.

Lemma index_nonneg len k :
  0 ≤ k < Z.of_nat len → Py.index len k = Some (Z.to_nat k).
Proof. intros H. unfold Py.index; cbv zeta. by rewrite bool_decide_eq_true_2. Qed.

Lemma setitem_length {A} (l l' : list A) k v :
  Py.setitem l k v = Ok l' → length l' = length l.
Proof.
  unfold Py.setitem. destruct (Py.index _ _); intros [= <-].
  apply length_insert.
Qed.

Lemma getitem_elem {A} (l : list A) k x :
  Py.getitem l k = Ok x → x ∈ l.
Proof.
  unfold Py.getitem. destruct (Py.index _ _) as [i|]; [|done].
  destruct (l !! i) eqn:E; intros [= <-].
  by eapply list_elem_of_lookup_2.
Qed.

Lemma del_length {A} (l l' : list A) k :
  Py.del l k = Ok l' → S (length l') = length l.
Proof.
  unfold Py.del. destruct (Py.index _ _) as [i|] eqn:E; intros [= <-].
  apply index_Some in E. rewrite length_delete; [lia|].
  by apply lookup_lt_is_Some_2.
Qed.

Lemma insert_length {A} (l : list A) k x :
  length (Py.insert l k x) = S (length l).
Proof.
  unfold Py.insert; cbv zeta.
  rewrite length_app; simpl. rewrite length_take, length_drop.
  case_bool_decide; lia.
Qed.

Lemma times_length {A} (x : A) n : length (Py.times x n) = Z.to_nat n.
Proof. apply length_replicate. Qed.

(** ** Loops *)

Lemma forM_preserves {A} (P : Terminal → Prop) (l : list A) body :
  (∀ x t t', P t → body x t = Ok t' → P t') →
  ∀ t t', P t → forM l body t = Ok t' → P t'.
Proof.
  intros Hbody. induction l as [|x l IH]; simpl; intros t t' HP H.
  - by injection H as <-.
  - inv_bind H. eauto.
Qed.

Lemma timesM_preserves (P : Terminal → Prop) n body :
  (∀ t t', P t → body t = Ok t' → P t') →
  ∀ t t', P t → timesM n body t = Ok t' → P t'.
Proof.
  intros Hbody. induction n as [|n IH]; simpl; intros t t' HP H.
  - by injection H as <-.
  - inv_bind H. eauto.
Qed.

(** ** The grid keeps its shape *)

Section shape.
Context (cs rs : Z).

Local Abbreviation ok := (grid_ok cs rs).

Lemma with_cursor_ok r c t : ok t → ok (with_cursor r c t).
Proof. done. Qed.

Lemma with_pending_ok p t : ok t → ok (with_pending p t).
Proof. done. Qed.

Lemma set_scroll_ok a b t : ok t → ok (set_scroll a b t).
Proof. done. Qed.

Lemma reset_ok t : cols t = cs → rows t = rs → ok (reset t).
Proof.
  intros Hc Hr. repeat split; simpl; try done.
  - by rewrite length_replicate, Hr.
  - apply Forall_replicate. unfold blank_line. by rewrite times_length, Hc.
Qed.

Lemma init_ok : ok (init cs rs).
Proof. by apply reset_ok. Qed.

Lemma del_lines_ok num r t t' : ok t → del_lines num r t = Ok t' → ok t'.
Proof.
  unfold del_lines. apply timesM_preserves.
  intros u u' (Hc & Hr & Hlen & Hall) H.
  inv_bind H. injection H as <-. rename x into b.
  repeat split; simpl; try done.
  - rewrite insert_length. apply del_length in Hx. lia.
  - unfold Py.insert; cbv zeta.
    assert (Forall (fun line => length line = Z.to_nat cs) b) as Hb.
    { unfold Py.del in Hx. destruct (Py.index _ _); [|done].
      injection Hx as <-. by apply Forall_delete. }
    apply Forall_app; split; [by apply Forall_take|].
    constructor; [|by apply Forall_drop].
    unfold blank_line. by rewrite times_length, Hc.
Qed.

Lemma move_ok r c rl t t' : ok t → move r c rl t = Ok t' → ok t'.
Proof.
  intros Hok H. unfold move in H. inv_bind H.
  destruct x as [r1 c1].
  destruct (bool_decide (c1 > cols t)), (bool_decide (_ < 1));
    destruct (scroll t) as [start end_];
    (case_bool_decide;
     [ inv_bind H; injection H as <-;
       apply with_cursor_ok; by eapply del_lines_ok
     | injection H as <-; by apply with_cursor_ok ]).
Qed.

Lemma puts_ok s mv t t' : ok t → puts s mv t = Ok t' → ok t'.
Proof.
  unfold puts. apply forM_preserves.
  intros ch u u' Hok H. inv_bind H.
  rename x into line, x0 into line', x1 into b.
  assert (ok (with_buf b u)) as Hok'.
  { destruct Hok as (Hc & Hr & Hlen & Hall).
    repeat split; simpl; try done.
    - apply setitem_length in Hx1. congruence.
    - unfold Py.setitem in Hx1. destruct (Py.index _ _); [|done].
      injection Hx1 as <-. apply Forall_insert; [done|].
      apply setitem_length in Hx0. rewrite Hx0.
      apply getitem_elem in Hx.
      apply list_elem_of_lookup_1 in Hx as [j Hj].
      by eapply Forall_lookup_1 in Hall. }
  destruct mv.
  - by eapply move_ok.
  - by injection H as <-.
Qed.

Lemma erase_ok a b t t' : ok t → erase a b t = Ok t' → ok t'.
Proof.
  intros Hok H. unfold erase in H. inv_bind H. injection H as <-.
  apply with_cursor_ok. revert Hok Hx. apply forM_preserves.
  intros r t1 t2. apply forM_preserves.
  intros c u u' Hok H. inv_bind H.
  eapply puts_ok; [|done]. by eapply move_ok.
Qed.

Lemma control_ok :
  Forall (fun rule => ∀ h, rule.2 = Some h → preserves cs rs h) control.
Proof.
  unfold control, REGEX, SIMPLE; simpl.
  repeat apply Forall_cons_2; try apply Forall_nil_2;
    simpl; intros h [= <-] g t t' Hok H;
    unfold with_g0, with_g01, rel in H; inv_bind H;
    try (injection H as <-);
    eauto using move_ok, del_lines_ok, erase_ok, set_scroll_ok.
  destruct Hok as (? & ? & _). by apply reset_ok.
Qed.

Lemma first_match_ok rules context t n t' :
  Forall (fun rule => ∀ h, rule.2 = Some h → preserves cs rs h) rules →
  ok t → first_match rules context t = Ok (n, t') → ok t'.
Proof.
  induction 1 as [|[r func] rules Hh _ IH]; simpl; intros Hok H.
  - by injection H as _ <-.
  - destruct (re_match r context) as [[m gs]|]; [|by apply IH].
    inv_bind H. destruct x as [k t1]. injection H as _ <-.
    unfold call in Hx. destruct func as [h|].
    + inv_bind Hx. injection Hx as _ <-. by eapply (Hh h).
    + by injection Hx as _ <-.
Qed.

Lemma sequence_ok data i t n t' :
  ok t → sequence data i t = Ok (n, t') → ok t'.
Proof.
  unfold sequence. intros Hok H.
  destruct (take 9 (drop (S i) data)).
  - by injection H as _ <-.
  - eapply first_match_ok; [apply control_ok|done..].
Qed.

Lemma pre_ok data i t p t' :
  ok t → pre data i t = Ok (p, t') → ok t'.
Proof.
  unfold pre. intros Hok H. inv_bind H. rename x into b.
  destruct (Ascii.eqb b ESC).
  { inv_bind H. destruct x as [k t1]. injection H as _ <-.
    by eapply sequence_ok. }
  repeat match type of H with
         | (if ?c then _ else _) = _ => destruct c
         end;
    inv_bind H; injection H as _ <-;
    eauto using move_ok, puts_ok, with_cursor_ok.
Qed.

Lemma scan_ok data n : ∀ i skip t t',
  ok t → scan data n i skip t = Ok t' → ok t'.
Proof.
  induction n as [|n IH]; simpl; intros i skip t t' Hok H.
  - by injection H as <-.
  - destruct skip as [|k]; [|by eapply IH].
    inv_bind H. destruct x as [p t1].
    assert (ok t1) as Hok1 by by eapply pre_ok.
    destruct p as [[|k]|].
    + case_bool_decide; [by injection H as <-|by eapply IH].
    + by eapply IH.
    + inv_bind H. eapply IH; [|done]. by eapply puts_ok.
Qed.

Lemma append_ok chunk t t' : ok t → append chunk t = Ok t' → ok t'.
Proof. intros Hok. unfold append. apply scan_ok. by apply with_pending_ok. Qed.

Lemma feed_ok chunks : ∀ t t', ok t → feed chunks t = Ok t' → ok t'.
Proof.
  unfold feed. induction chunks as [|chunk chunks IH] using rev_ind;
    intros t t' Hok H.
  - by injection H as <-.
  - rewrite foldl_app in H. simpl in H. inv_bind H.
    eapply append_ok; [|done]. by eapply IH.
Qed.

Lemma dump_length t :
  ok t → Z.of_nat (length (dump t)) = Z.of_nat (Z.to_nat rs) * (Z.of_nat (Z.to_nat cs) + 1).
Proof.
  intros (_ & _ & Hlen & Hall). unfold dump. rewrite <- Hlen. clear Hlen.
  induction Hall as [|line b Hline _ IH]; [done|].
  simpl. rewrite !length_app, Hline. simpl length. lia.
Qed.

End shape.

(** C9.  For a terminal constructed with [rows, cols >= 1], after any
    series of [append] calls that all return normally the buffer holds
    exactly [rows] rows of exactly [cols] cells each, and [dump] returns
    exactly [rows * (cols + 1)] characters. *)
Theorem C9_grid_shape_invariant (cs rs : Z) (chunks : list text) (t' : Terminal) :
  1 ≤ cs → 1 ≤ rs →
  feed chunks (init cs rs) = Ok t' →
  Z.of_nat (length (buf t')) = rs ∧
  Forall (fun line => Z.of_nat (length line) = cs) (buf t') ∧
  Z.of_nat (length (dump t')) = rs * (cs + 1).
Proof.
  intros Hcs Hrs H.
  assert (grid_ok cs rs t') as Hok by (eapply feed_ok; [apply init_ok|done]).
  split; [|split].
  - destruct Hok as (_ & _ & Hlen & _). lia.
  - destruct Hok as (_ & _ & _ & Hall).
    induction Hall as [|line b Hline _ IH]; constructor; [lia|done].
  - rewrite (dump_length cs rs t' Hok). lia.
Qed.

Lemma C9_witness :
  let chunks := [str "ab"; [LF]; ESC :: str "[5M"; str "c"] in
  let t' := mkTerminal 3 2 (1, 2) 2 2 []
              [str "ab "; str "c  "] in
  feed chunks (init 3 2) = Ok t' ∧
  Z.of_nat (length (buf t')) = 2 ∧
  Forall (fun line => Z.of_nat (length line) = 3) (buf t') ∧
  Z.of_nat (length (dump t')) = 2 * (3 + 1).
Proof.
  split; [vm_compute; reflexivity|].
  apply (C9_grid_shape_invariant 3 2
           [str "ab"; [LF]; ESC :: str "[5M"; str "c"]); [lia|lia|].
  vm_compute; reflexivity.
Defined.

(** ** Single steps inside the scroll region *)

Lemma bind_Ok_r {A} (m : result A) : m ≫= Ok = m.
Proof. by destruct m. Qed.

Lemma move_inside t r c top bot :
  scroll t = (top, bot) → top ≤ r ≤ bot → 1 ≤ c ≤ cols t →
  move (Some r) (Some c) false t = Ok (with_cursor r c t).
Proof.
  intros Hs Hr Hc. unfold move. simpl. rewrite Hs.
  rewrite (bool_decide_eq_false_2 (c > cols t)) by lia.
  rewrite (bool_decide_eq_false_2 (c < 1)) by lia.
  rewrite (bool_decide_eq_false_2 (r < top)) by lia.
  by rewrite (bool_decide_eq_false_2 (r > bot)) by lia.
Qed.

Lemma move_wrap t r c top bot :
  scroll t = (top, bot) → top ≤ r + 1 ≤ bot → c = cols t →
  move (Some r) (Some (c + 1)) false t = Ok (with_cursor (r + 1) 1 t).
Proof.
  intros Hs Hr Hc. unfold move. simpl. rewrite Hs.
  rewrite (bool_decide_eq_true_2 (c + 1 > cols t)) by lia.
  rewrite (bool_decide_eq_false_2 (1 < 1)) by lia.
  rewrite (bool_decide_eq_false_2 (r + 1 < top)) by lia.
  by rewrite (bool_decide_eq_false_2 (r + 1 > bot)) by lia.
Qed.

(** Inside the grid, [buf[row-1][col-1] = ch] is [set_cell]. *)
Lemma puts_char cs rs t ch mv :
  grid_ok cs rs t → 1 ≤ row t ≤ rs → 1 ≤ col t ≤ cs →
  puts [ch] mv t =
    let t1 := with_buf (set_cell (buf t) (Z.to_nat (row t - 1))
                                 (Z.to_nat (col t - 1)) ch) t in
    if mv then move (Some (row t)) (Some (col t + 1)) false t1 else Ok t1.
Proof.
  intros (Hc & Hr & Hlen & Hall) Hrow Hcol.
  unfold puts. simpl forM. rewrite bind_Ok_r.
  unfold Py.getitem, Py.setitem, set_cell.
  rewrite (index_nonneg (length (buf t))) by lia.
  destruct (lookup_lt_is_Some_2 (buf t) (Z.to_nat (row t - 1))) as [line Hline];
    [lia|].
  rewrite Hline. simpl.
  assert (length line = Z.to_nat cs) as Hl by by eapply Forall_lookup_1 in Hall.
  by rewrite (index_nonneg (length line)) by lia.
Qed.

Lemma cell_set_cell cs rs t r c ch r' c' :
  grid_ok cs rs t → 1 ≤ r ≤ rs → 1 ≤ c ≤ cs → 1 ≤ r' → 1 ≤ c' →
  cell (with_buf (set_cell (buf t) (Z.to_nat (r - 1)) (Z.to_nat (c - 1)) ch) t) r' c' =
    if bool_decide (r' = r ∧ c' = c) then Some ch else cell t r' c'.
Proof.
  intros (Hc & Hr & Hlen & Hall) Hrow Hcol Hr' Hc'.
  unfold cell, set_cell. simpl.
  destruct (lookup_lt_is_Some_2 (buf t) (Z.to_nat (r - 1))) as [line Hline];
    [lia|].
  rewrite Hline.
  assert (length line = Z.to_nat cs) as Hl by by eapply Forall_lookup_1 in Hall.
  destruct (decide (r' = r)) as [->|Hne].
  - rewrite list_lookup_insert_eq by lia. rewrite Hline. simpl.
    destruct (decide (c' = c)) as [->|Hne].
    + rewrite bool_decide_eq_true_2 by done.
      apply list_lookup_insert_eq. lia.
    + rewrite bool_decide_eq_false_2 by (intros [_ ?]; done).
      apply list_lookup_insert_ne. lia.
  - rewrite bool_decide_eq_false_2 by (intros [? _]; done).
    rewrite list_lookup_insert_ne by lia. done.
Qed.

Lemma set_cell_ok cs rs t i j ch :
  grid_ok cs rs t → grid_ok cs rs (with_buf (set_cell (buf t) i j ch) t).
Proof.
  intros (Hc & Hr & Hlen & Hall). unfold set_cell.
  destruct (buf t !! i) as [line|] eqn:Hline; [|done].
  repeat split; simpl; try done.
  - by rewrite length_insert.
  - apply Forall_insert; [done|]. rewrite length_insert.
    by eapply Forall_lookup_1 in Hall.
Qed.

(** ** [erase] inside the scroll region *)

Section erase.
Context (cs rs top bot : Z).

Local Abbreviation body r :=
  (fun c t => t1 ← move (Some r) (Some c) false t; puts [SP] true t1).

Lemma frame_refl t : frame t t.
Proof. done. Qed.

Lemma frame_trans t1 t2 t3 : frame t1 t2 → frame t2 t3 → frame t1 t3.
Proof. unfold frame. intros (?&?&?&?) (?&?&?&?). repeat split; congruence. Qed.

(** One cell: go there, write a space, step right (or wrap to the next
    row, which must then still be inside the region). *)
Lemma erase_cell t r c :
  grid_ok cs rs t → scroll t = (top, bot) →
  top ≤ r ≤ bot → 1 ≤ r ≤ rs → 1 ≤ c ≤ cs → (c = cs → r < bot) →
  ∃ r' c',
    body r c t =
      Ok (with_cursor r' c'
            (with_buf (set_cell (buf t) (Z.to_nat (r - 1)) (Z.to_nat (c - 1)) SP) t)).
Proof.
  intros Hok Hs Hr Hgr Hc Hlast. pose proof Hok as (Hcols & _).
  rewrite (move_inside t r c top bot) by (done || lia). simpl.
  rewrite (puts_char cs rs) by (simpl; done || lia). simpl.
  destruct (decide (c = cs)) as [->|Hne].
  - exists (r + 1), 1.
    by rewrite (move_wrap _ r cs top bot) by (simpl; done || lia).
  - exists r, (c + 1).
    by rewrite (move_inside _ r (c + 1) top bot) by (simpl; done || lia).
Qed.

(** The inner loop: columns [c0 .. c0+n-1] of row [r]. *)
Lemma erase_columns r n : ∀ c0 t,
  grid_ok cs rs t → scroll t = (top, bot) →
  top ≤ r ≤ bot → 1 ≤ r ≤ rs → 1 ≤ c0 →
  (n ≠ 0%nat → c0 + Z.of_nat n ≤ cs + 1 ∧ (c0 + Z.of_nat n = cs + 1 → r < bot)) →
  ∃ t', forM (seqZ c0 (Z.of_nat n)) (body r) t = Ok t' ∧
        grid_ok cs rs t' ∧ frame t t' ∧
        ∀ r' c', 1 ≤ r' → 1 ≤ c' →
          cell t' r' c' =
            if bool_decide (r' = r ∧ c0 ≤ c' < c0 + Z.of_nat n)
            then Some SP else cell t r' c'.
Proof.
  induction n as [|n IH]; intros c0 t Hok Hs Hr Hgr Hc0 Hn.
  - exists t. split_and!; try done. intros r' c' _ _.
    by rewrite bool_decide_eq_false_2 by lia.
  - destruct (Hn ltac:(done)) as [Hn1 Hn2]. rewrite seqZ_cons by lia.
    replace (Z.pred (Z.of_nat (S n))) with (Z.of_nat n) by lia.
    cbn [forM].
    destruct (erase_cell t r c0) as (r1 & c1 & ->);
      [done|done|lia|lia|lia|lia|].
    simpl.
    set (t1 := with_cursor _ _ _).
    assert (grid_ok cs rs t1) as Hok1.
    { unfold t1. apply with_cursor_ok. by apply set_cell_ok. }
    destruct (IH (Z.succ c0) t1) as (t' & Hrun & Hok' & Hfr & Hcells);
      [done|done|done|done|lia|lia|].
    exists t'. split_and!; try done.
    intros r' c' Hr' Hc'. rewrite Hcells by done.
    unfold t1. change (cell (with_cursor ?a ?b ?u)) with (cell u).
    rewrite (cell_set_cell cs rs) by (done || lia).
    repeat case_bool_decide; try done; lia.
Qed.

(** The outer loop: rows [r0 .. r0+m-1], columns [c0 .. c1-1]. *)
Lemma erase_rows c0 c1 m : ∀ r0 t,
  grid_ok cs rs t → scroll t = (top, bot) →
  top ≤ r0 → 1 ≤ r0 →
  (m ≠ 0%nat → r0 + Z.of_nat m ≤ bot + 1 ∧ r0 + Z.of_nat m ≤ rs + 1) →
  1 ≤ c0 → c1 ≤ cs + 1 →
  (m ≠ 0%nat → c1 = cs + 1 → r0 + Z.of_nat m ≤ bot) →
  ∃ t', forM (seqZ r0 (Z.of_nat m))
          (fun r => forM (Py.range c0 c1) (body r)) t = Ok t' ∧
        grid_ok cs rs t' ∧ frame t t' ∧
        ∀ r' c', 1 ≤ r' → 1 ≤ c' →
          cell t' r' c' =
            if bool_decide ((r0 ≤ r' < r0 + Z.of_nat m) ∧ c0 ≤ c' < c1)
            then Some SP else cell t r' c'.
Proof.
  induction m as [|m IH]; intros r0 t Hok Hs Hr0 Hg0 Hm Hc0 Hc1 Hlast.
  - exists t. split_and!; try done. intros r' c' _ _.
    by rewrite bool_decide_eq_false_2 by lia.
  - destruct (Hm ltac:(done)) as [Hm1 Hm2]. specialize (Hlast ltac:(done)).
    rewrite seqZ_cons by lia.
    replace (Z.pred (Z.of_nat (S m))) with (Z.of_nat m) by lia.
    cbn [forM].
    assert (Py.range c0 c1 = seqZ c0 (Z.of_nat (Z.to_nat (c1 - c0)))) as ->.
    { unfold Py.range, seqZ. by rewrite Nat2Z.id. }
    destruct (erase_columns r0 (Z.to_nat (c1 - c0)) c0 t)
      as (t1 & Hrun1 & Hok1 & Hfr1 & Hcells1); [done|done|lia|lia|lia|lia|].
    rewrite Hrun1. simpl.
    assert (Py.range c0 c1 = seqZ c0 (Z.of_nat (Z.to_nat (c1 - c0)))) as Hrg.
    { unfold Py.range, seqZ. by rewrite Nat2Z.id. }
    destruct (IH (Z.succ r0) t1) as (t' & Hrun & Hok' & Hfr & Hcells);
      [done|by rewrite (proj1 (proj2 (proj2 Hfr1)))|lia|lia|lia|done|done|lia|].
    rewrite Hrg in Hrun. rewrite Hrun.
    exists t'. split_and!; try done.
    { by eapply frame_trans. }
    intros r' c' Hr' Hc'. rewrite Hcells, Hcells1 by done.
    repeat case_bool_decide; try done; lia.
Qed.

(** [erase] on a rectangle of grid cells whose rows lie in the scroll
    region and that leaves out the last cell of the region's last row. *)
Lemma erase_spec t r0 c0 r1 c1 :
  grid_ok cs rs t → scroll t = (top, bot) →
  1 ≤ r0 → r1 ≤ rs + 1 → 1 ≤ c0 → c1 ≤ cs + 1 →
  top ≤ r0 → r1 ≤ bot + 1 → (c1 = cs + 1 → r1 ≤ bot) →
  ∃ t', erase (r0, c0) (r1, c1) t = Ok t' ∧
        grid_ok cs rs t' ∧ frame t t' ∧
        row t' = row t ∧ col t' = col t ∧
        ∀ r c, 1 ≤ r → 1 ≤ c →
          cell t' r c =
            if bool_decide (r0 ≤ r < r1 ∧ c0 ≤ c < c1)
            then Some SP else cell t r c.
Proof.
  intros Hok Hs Hg0 Hg1 Hc0 Hc1 Hr0 Hr1 Hlast. unfold erase. simpl.
  assert (Py.range r0 r1 = seqZ r0 (Z.of_nat (Z.to_nat (r1 - r0)))) as ->.
  { unfold Py.range, seqZ. by rewrite Nat2Z.id. }
  destruct (erase_rows c0 c1 (Z.to_nat (r1 - r0)) r0 t)
    as (t' & Hrun & Hok' & Hfr & Hcells);
    [done|done|lia|lia|lia|done|done|lia|].
  rewrite Hrun. simpl. eexists. split; [done|].
  split_and!; try done; try apply Hfr.
  intros r c Hr Hc. change (cell (with_cursor ?a ?b ?u)) with (cell u).
  rewrite Hcells by done.
  repeat case_bool_decide; try done; lia.
Qed.

End erase.

(** ** The sequence [ESC [ K] *)

Lemma with_pending_id t : pending t = [] → with_pending [] t = t.
Proof. destruct t; simpl; by intros ->. Qed.

Lemma append_erase_eol t :
  pending t = [] →
  append (ESC :: str "[K") t = erase (row t, col t) (row t + 1, cols t) t.
Proof.
  intros Hp. unfold append. rewrite with_pending_id, Hp by done.
  change ([] ++ ESC :: str "[K") with [ESC; "["; "K"].
  cbn [length scan].
  assert (pre [ESC; "["; "K"] 0 t =
            t' ← erase (row t, col t) (row t + 1, cols t) t;
            Ok (Some 3%nat, t')) as ->.
  { cbv -[erase Z.add row col cols]. by destruct (erase _ _ t). }
  by destruct (erase _ _ t).
Qed.

Ltac concrete_grid :=
  unfold grid_ok; simpl; split_and!; try reflexivity; repeat constructor.

(** C10 (as amended).  Processing [ESC [ K] with the cursor at [(r, c)],
    [r] a row of the grid ([1 <= r <= rows]) inside the active scroll
    region and [1 <= c <= cols], blanks the cells of row [r] in columns
    [c .. cols - 1] only: the cell in the last column of row [r] keeps its
    content, every other cell keeps its content, and the cursor is where
    it was. *)
Theorem C10_erase_to_end_of_line_gap (cs rs top bot : Z) (t : Terminal) :
  grid_ok cs rs t → pending t = [] → scroll t = (top, bot) →
  top ≤ row t ≤ bot → 1 ≤ row t ≤ rs → 1 ≤ col t ≤ cs →
  ∃ t', append (ESC :: str "[K") t = Ok t' ∧
        row t' = row t ∧ col t' = col t ∧
        cell t' (row t) cs = cell t (row t) cs ∧
        ∀ r c, 1 ≤ r → 1 ≤ c →
          cell t' r c =
            if bool_decide (r = row t ∧ col t ≤ c < cs)
            then Some SP else cell t r c.
Proof.
  intros Hok Hp Hs Hreg Hrow Hcol.
  rewrite append_erase_eol by done.
  pose proof Hok as (Hcs & _). rewrite Hcs.
  destruct (erase_spec cs rs top bot t (row t) (col t) (row t + 1) cs)
    as (t' & Hrun & _ & _ & Hr & Hc & Hcells); try done; try lia.
  exists t'. split_and!; try done.
  - rewrite Hcells by lia. by rewrite bool_decide_eq_false_2 by lia.
  - intros r c Hr1 Hc1. rewrite Hcells by done.
    repeat case_bool_decide; try done; lia.
Qed.

Lemma C10_witness :
  let t := mkTerminal 4 2 (1, 2) 1 2 [] [str "abcd"; str "efgh"] in
  ∃ t', append (ESC :: str "[K") t = Ok t' ∧
        row t' = row t ∧ col t' = col t ∧
        cell t' (row t) 4 = cell t (row t) 4 ∧
        ∀ r c, 1 ≤ r → 1 ≤ c →
          cell t' r c =
            if bool_decide (r = row t ∧ col t ≤ c < 4)
            then Some SP else cell t r c.
Proof.
  apply (C10_erase_to_end_of_line_gap 4 2 1 2
           (mkTerminal 4 2 (1, 2) 1 2 [] [str "abcd"; str "efgh"]));
    [concrete_grid|reflexivity|reflexivity|simpl; lia..].
Defined.

(** C10 as stated fails when the scroll region reaches outside the grid,
    so that the cursor row is inside the region but is no row of the grid.
    With region [(1, 9)] on a 2-row terminal the cursor can stand on row 5,
    and [ESC [ K] raises [IndexError].  With region [(0, 5)] the cursor
    can stand on row 0, and [ESC [ K] blanks columns 1 to 3 of the LAST row
    (the subscript [-1]), a row other than the cursor's. *)
Lemma C10_counterexample :
  let t := mkTerminal 4 2 (1, 9) 5 2 [] [str "    "; str "    "] in
  let u := mkTerminal 4 2 (0, 5) 0 1 [] [str "abcd"; str "efg "] in
  let u' := mkTerminal 4 2 (0, 5) 0 1 [] [str "abcd"; str "    "] in
  (feed [ESC :: str "[1;9r"; ESC :: str "[5;2H"] (init 4 2) = Ok t ∧
   fst (scroll t) ≤ row t ≤ snd (scroll t) ∧ 1 ≤ col t ≤ cols t ∧
   append (ESC :: str "[K") t = Raise IndexError) ∧
  (feed [str "abcdefg"; ESC :: str "[0;5r"; ESC :: str "[0;1H"] (init 4 2) = Ok u ∧
   fst (scroll u) ≤ row u ≤ snd (scroll u) ∧ 1 ≤ col u ≤ cols u ∧
   append (ESC :: str "[K") u = Ok u' ∧
   cell u 2 1 = Some "e" ∧ cell u' 2 1 = Some SP).
Proof. vm_compute. split_and!; (done || discriminate). Qed.

(** C7 (as amended).  For every rectangle within grid bounds
    ([1 <= start.row], [end.row <= rows + 1], [1 <= start.col],
    [end.col <= cols + 1]) whose rows lie inside the active scroll region
    ([top <= start.row], [end.row <= bottom + 1]) and that does not reach
    the last cell of the region's last row ([end.col = cols + 1] only with
    [end.row <= bottom]), [erase(start, end)] blanks exactly the cells of
    the half-open rectangle [[start.row, end.row) x [start.col, end.col)]
    (every cell inside becomes a space, every cell outside is unchanged)
    and puts the cursor back where it was. *)
Theorem C7_erase_rect_inside_region (cs rs top bot : Z) (t : Terminal)
    (r0 c0 r1 c1 : Z) :
  grid_ok cs rs t → scroll t = (top, bot) →
  1 ≤ r0 → r1 ≤ rs + 1 → 1 ≤ c0 → c1 ≤ cs + 1 →
  top ≤ r0 → r1 ≤ bot + 1 → (c1 = cs + 1 → r1 ≤ bot) →
  ∃ t', erase (r0, c0) (r1, c1) t = Ok t' ∧
        row t' = row t ∧ col t' = col t ∧
        ∀ r c, 1 ≤ r → 1 ≤ c →
          cell t' r c =
            if bool_decide (r0 ≤ r < r1 ∧ c0 ≤ c < c1)
            then Some SP else cell t r c.
Proof.
  intros Hok Hs Hg0 Hg1 Hc0 Hc1 Hr0 Hr1 Hlast.
  destruct (erase_spec cs rs top bot t r0 c0 r1 c1)
    as (t' & Hrun & _ & _ & Hr & Hc & Hcells); try done.
  by exists t'.
Qed.

Lemma C7_witness :
  let t := mkTerminal 4 3 (2, 3) 3 1 [] [str "abcd"; str "efgh"; str "ijkl"] in
  ∃ t', erase (2, 2) (3, 5) t = Ok t' ∧
        row t' = row t ∧ col t' = col t ∧
        ∀ r c, 1 ≤ r → 1 ≤ c →
          cell t' r c =
            if bool_decide (2 ≤ r < 3 ∧ 2 ≤ c < 5)
            then Some SP else cell t r c.
Proof.
  apply (C7_erase_rect_inside_region 4 3 2 3
           (mkTerminal 4 3 (2, 3) 3 1 [] [str "abcd"; str "efgh"; str "ijkl"])
           2 2 3 5);
    [concrete_grid|reflexivity|lia..].
Defined.

(** C7 as stated fails in two ways.  With the scroll region [(2, 3)]
    active, erasing the in-bounds rectangle made of the single cell [(1, 1)]
    leaves that cell alone and blanks the cell [(2, 1)] below it, because
    [move] clamps the row to the region.  And with the default region,
    erasing the single cell in the bottom right corner makes the cursor
    step past the last row, which scrolls: the cell [(2, 1)], outside the
    rectangle, is blanked too. *)
Lemma C7_counterexample :
  let t := mkTerminal 3 3 (2, 3) 3 3 [] [str "ab "; str "cd "; str "ef "] in
  let t' := mkTerminal 3 3 (2, 3) 3 3 [] [str "ab "; str " d "; str "ef "] in
  let u := mkTerminal 2 2 (1, 2) 1 1 [] [str "ab"; str "cd"] in
  let u' := mkTerminal 2 2 (1, 2) 1 1 [] [str "ab"; str "  "] in
  (feed [str "ab" ++ [CR; LF] ++ str "cd" ++ [CR; LF] ++ str "ef";
         ESC :: str "[2;3r"] (init 3 3) = Ok t ∧
   erase (1, 1) (2, 2) t = Ok t' ∧
   cell t 1 1 = Some "a" ∧ cell t' 1 1 = Some "a" ∧
   cell t 2 1 = Some "c" ∧ cell t' 2 1 = Some SP) ∧
  (erase (2, 2) (3, 3) u = Ok u' ∧
   cell u 2 1 = Some "c" ∧ cell u' 2 1 = Some SP).
Proof. vm_compute. by split_and!. Qed.

(** ** Plain text *)

Lemma puts_cons ch s mv t :
  puts (ch :: s) mv t = t1 ← puts [ch] mv t; puts s mv t1.
Proof.
  unfold puts. cbn [forM].
  match goal with |- ?m ≫= _ = _ => by destruct m end.
Qed.

Lemma puts_app s1 s2 mv : ∀ t,
  puts (s1 ++ s2) mv t = t1 ← puts s1 mv t; puts s2 mv t1.
Proof.
  induction s1 as [|ch s1 IH]; intros t; [done|].
  rewrite <- app_comm_cons, (puts_cons ch (s1 ++ s2)), (puts_cons ch s1).
  destruct (puts [ch] mv t) as [t1|e]; [|done]. simpl. apply IH.
Qed.

Lemma pre_plain data i ch t :
  data !! i = Some ch → plain ch → pre data i t = Ok (None, t).
Proof.
  intros Hi (H1 & H2 & H3 & H4 & H5). unfold pre, Py.getitem.
  rewrite index_nonneg by (apply lookup_lt_Some in Hi; lia).
  rewrite Nat2Z.id, Hi. simpl.
  by rewrite !(proj2 (Ascii.eqb_neq _ _)) by done.
Qed.

(** On plain text the scanning loop is [puts]. *)
Lemma scan_plain data n : ∀ i t,
  (i + n)%nat = length data → Forall plain (drop i data) →
  scan data n i 0 t = puts (drop i data) true t.
Proof.
  induction n as [|n IH]; intros i t Hlen Hplain.
  - rewrite drop_ge by lia. done.
  - destruct (lookup_lt_is_Some_2 data i) as [ch Hch]; [lia|].
    rewrite (drop_S data ch i Hch) in Hplain |- *.
    apply Forall_cons_1 in Hplain as [Hp Hplain].
    cbn [scan]. rewrite (pre_plain data i ch) by done. simpl.
    unfold Py.getitem.
    rewrite index_nonneg by lia. rewrite Nat2Z.id, Hch. simpl.
    rewrite (puts_cons ch (drop (S i) data)).
    destruct (puts [ch] true t) as [t1|e]; [|done]. simpl.
    apply IH; [lia|done].
Qed.

Lemma append_plain s t :
  pending t = [] → Forall plain s → append s t = puts s true t.
Proof.
  intros Hp Hs. unfold append. rewrite with_pending_id, Hp by done. simpl.
  by rewrite scan_plain by done.
Qed.

(** Writing a run of characters that stays on the cursor's row, or ends
    exactly at its last column and wraps to the next row of the region. *)
Lemma puts_run cs rs top bot s : ∀ t,
  1 ≤ top → bot ≤ rs →
  grid_ok cs rs t → scroll t = (top, bot) →
  top ≤ row t ≤ bot → 1 ≤ col t ≤ cs →
  col t + Z.of_nat (length s) ≤ cs + 1 →
  (col t + Z.of_nat (length s) = cs + 1 → row t < bot) →
  ∃ t', puts s true t = Ok t' ∧
        grid_ok cs rs t' ∧ frame t t' ∧
        (row t', col t') =
          (if bool_decide (col t + Z.of_nat (length s) = cs + 1)
           then (row t + 1, 1) else (row t, col t + Z.of_nat (length s))) ∧
        ∀ r c, 1 ≤ r → 1 ≤ c →
          cell t' r c =
            if bool_decide (r = row t ∧ col t ≤ c < col t + Z.of_nat (length s))
            then s !! Z.to_nat (c - col t) else cell t r c.
Proof.
  induction s as [|ch s IH]; intros t Htop Hbot Hok Hs Hrow Hcol Hfit Hlast.
  - exists t. simpl length in *. split_and!; try done.
    + rewrite bool_decide_eq_false_2 by lia. f_equal. lia.
    + intros r c _ _. by rewrite bool_decide_eq_false_2 by lia.
  - simpl length in *. rewrite (puts_cons ch s).
    rewrite (puts_char cs rs) by (done || lia). cbv zeta.
    pose proof Hok as (Hcols & _).
    set (t1 := with_buf _ t).
    assert (grid_ok cs rs t1) as Hok1 by by apply set_cell_ok.
    assert (∀ r c, 1 ≤ r → 1 ≤ c →
              cell t1 r c = if bool_decide (r = row t ∧ c = col t)
                            then Some ch else cell t r c) as Hcell1.
    { intros r c Hr Hc. unfold t1.
      by rewrite (cell_set_cell cs rs) by (done || lia). }
    destruct (decide (col t = cs)) as [Hend|Hmid].
    + destruct s as [|? ?]; [|simpl length in Hfit; lia].
      simpl length in *.
      rewrite (move_wrap t1 (row t) (col t) top bot) by (simpl; done || lia).
      simpl. eexists. split; [done|]. split_and!; try done.
      * rewrite bool_decide_eq_true_2 by lia. done.
      * intros r c Hr Hc.
        change (cell (with_cursor ?a ?b ?u)) with (cell u).
        rewrite Hcell1 by done.
        repeat case_bool_decide; try done; try lia.
        destruct_and!. subst. by rewrite Z.sub_diag.
    + rewrite (move_inside t1 (row t) (col t + 1) top bot) by (simpl; done || lia).
      simpl.
      destruct (IH (with_cursor (row t) (col t + 1) t1))
        as (t' & Hrun & Hok' & Hfr & Hcur & Hcells);
        try done; simpl; try lia.
      exists t'. split_and!; try done.
      * rewrite Hcur. simpl. repeat case_bool_decide; try lia; f_equal; lia.
      * intros r c Hr Hc. rewrite Hcells by done. simpl.
        change (cell (with_cursor ?a ?b ?u)) with (cell u).
        rewrite Hcell1 by done.
        repeat case_bool_decide; try done; try lia.
        all: first
          [ by replace (Z.to_nat (c - col t))
              with (S (Z.to_nat (c - (col t + 1)))) by lia
          | by replace (Z.to_nat (c - col t)) with 0%nat by lia ].
Qed.

(** C8 (as amended).  On a terminal with [cols >= 2], [rows >= 2] and the
    default scroll region, writing [cols + 1] plain characters starting with
    the cursor at row 1, column 1 leaves the cursor at row 2, column 2;
    row 1 then contains the first [cols] characters and the
    [(cols+1)]-th character is at row 2, column 1. *)
Theorem C8_cursor_wrap (cs rs : Z) (t : Terminal) (s : text) :
  2 ≤ cs → 2 ≤ rs →
  grid_ok cs rs t → scroll t = (1, rs) → pending t = [] →
  row t = 1 → col t = 1 →
  Forall plain s → Z.of_nat (length s) = cs + 1 →
  ∃ t', append s t = Ok t' ∧
        row t' = 2 ∧ col t' = 2 ∧
        (∀ k, 1 ≤ k ≤ cs → cell t' 1 k = s !! Z.to_nat (k - 1)) ∧
        cell t' 2 1 = s !! Z.to_nat cs.
Proof.
  intros Hcs Hrs Hok Hs Hp Hrow Hcol Hplain Hlen.
  rewrite append_plain by done.
  destruct s as [|b s1 _] using rev_ind; [simpl in Hlen; lia|].
  rewrite length_app in Hlen. simpl in Hlen.
  rewrite puts_app.
  destruct (puts_run cs rs 1 rs s1 t)
    as (t1 & -> & Hok1 & Hfr1 & Hcur1 & Hcells1); try done; try lia.
  rewrite bool_decide_eq_true_2 in Hcur1 by lia.
  injection Hcur1 as Hrow1 Hcol1. simpl.
  destruct (puts_run cs rs 1 rs [b] t1)
    as (t2 & -> & Hok2 & Hfr2 & Hcur2 & Hcells2); try done;
    try (simpl; lia).
  { by rewrite (proj1 (proj2 (proj2 Hfr1))). }
  simpl length in *.
  rewrite bool_decide_eq_false_2 in Hcur2 by lia.
  injection Hcur2 as Hrow2 Hcol2.
  exists t2. split_and!; try done; try lia.
  - intros k Hk. rewrite Hcells2, Hcells1 by lia.
    rewrite bool_decide_eq_false_2 by lia.
    rewrite bool_decide_eq_true_2 by lia.
    rewrite Hcol. by rewrite lookup_app_l by lia.
  - rewrite Hcells2 by lia.
    rewrite bool_decide_eq_true_2 by lia.
    rewrite Hcol1. simpl.
    rewrite lookup_app_r by lia.
    by replace (Z.to_nat cs - length s1)%nat with 0%nat by lia.
Qed.

Lemma C8_witness :
  ∃ t', append (str "abcd") (init 3 2) = Ok t' ∧
        row t' = 2 ∧ col t' = 2 ∧
        (∀ k, 1 ≤ k ≤ 3 → cell t' 1 k = str "abcd" !! Z.to_nat (k - 1)) ∧
        cell t' 2 1 = str "abcd" !! Z.to_nat 3.
Proof.
  apply (C8_cursor_wrap 3 2 (init 3 2) (str "abcd"));
    [lia|lia|concrete_grid|reflexivity..| |reflexivity].
  repeat constructor; discriminate.
Defined.

(** C8 as stated fails on a one-column terminal: there the second character
    wraps again, so after [cols + 1 = 2] plain characters on a 3-row
    terminal the cursor is at row 3, column 1. *)
Lemma C8_counterexample :
  let t' := mkTerminal 1 3 (1, 3) 3 1 [] [str "a"; str "b"; str " "] in
  rows (init 1 3) = 3 ∧ scroll (init 1 3) = (1, 3) ∧
  row (init 1 3) = 1 ∧ col (init 1 3) = 1 ∧
  append (str "ab") (init 1 3) = Ok t' ∧
  (row t', col t') ≠ (2, 2).
Proof. vm_compute. by split_and!. Qed.

(** ** Scrolling *)

Lemma del_last {A} (l : list A) :
  l ≠ [] → Py.del l (-1) = Ok (take (length l - 1) l).
Proof.
  intros Hl. assert (length l ≠ 0%nat) by by destruct l.
  unfold Py.del, Py.index. cbv zeta.
  rewrite bool_decide_eq_false_2 by lia.
  rewrite bool_decide_eq_true_2 by lia.
  replace (Z.to_nat (Z.of_nat (length l) + -1)) with (length l - 1)%nat by lia.
  by rewrite delete_take_drop, (drop_ge l), app_nil_r by lia.
Qed.

Lemma insert_at_end {A} (l : list A) k x :
  k = Z.of_nat (length l) → Py.insert l k x = l ++ [x].
Proof.
  intros ->. unfold Py.insert. cbv zeta.
  rewrite bool_decide_eq_false_2 by lia.
  rewrite Z.min_id, Nat2Z.id.
  by rewrite take_ge, drop_ge by lia.
Qed.

(** With the default region the scroll triggered by [move] calls
    [del_lines(1, 0)], whose [del self.buf[-1]] removes the LAST row: the
    rows above keep their content and place, and a blank row is put back
    at the bottom. *)
Lemma move_past_bottom_default cs rs t r c :
  grid_ok cs rs t → 1 ≤ rs → scroll t = (1, rs) →
  rs < r → 1 ≤ c ≤ cs →
  move (Some r) (Some c) false t =
    Ok (with_cursor rs c
          (with_buf (take (Z.to_nat (rs - 1)) (buf t) ++ [blank_line t]) t)).
Proof.
  intros (Hc & Hr & Hlen & Hall) Hrs Hs Hrow Hcol.
  unfold move. simpl. rewrite Hs.
  rewrite (bool_decide_eq_false_2 (c > cols t)) by lia.
  rewrite (bool_decide_eq_false_2 (c < 1)) by lia.
  rewrite (bool_decide_eq_false_2 (r < 1)) by lia.
  rewrite (bool_decide_eq_true_2 (r > rs)) by lia.
  unfold del_lines. change (Z.to_nat 1) with 1%nat. cbn [timesM default].
  change (1 - 1 - 1) with (-1).
  rewrite del_last by (intros E; rewrite E in Hlen; simpl in Hlen; lia).
  simpl. rewrite Hs. simpl.
  rewrite insert_at_end by (rewrite length_take; lia).
  by replace (length (buf t) - 1)%nat with (Z.to_nat (rs - 1)) by lia.
Qed.

(** C1 (the code at the failing input).  On a 2 by 2 terminal with the
    default region, the line feed on the last row does not discard row 1:
    row 1 keeps ["a "], and the content ["b "] of the last row is lost. *)
Theorem C1_line_feed_on_last_row_drops_last_row :
  let before := mkTerminal 2 2 (1, 2) 2 2 [] [str "a "; str "b "] in
  let after := mkTerminal 2 2 (1, 2) 2 1 [] [str "a "; str "  "] in
  append (str "a" ++ [LF] ++ str "b") (init 2 2) = Ok before ∧
  append [LF] before = Ok after.
Proof. vm_compute. by split. Qed.

(** C2 (the code at the failing input).  Each of the four single-step
    cursor moves raises [TypeError]: the handler passes only one of the two
    deltas, and [move] adds the missing one, [None], to the cursor. *)
Theorem C2_single_step_moves_raise :
  append (ESC :: str "[A") (init 3 3) = Raise TypeError ∧
  append (ESC :: str "[B") (init 3 3) = Raise TypeError ∧
  append (ESC :: str "[C") (init 3 3) = Raise TypeError ∧
  append (ESC :: str "[D") (init 3 3) = Raise TypeError.
Proof. vm_compute. by split_and!. Qed.

(** C3 (the code at the failing input).  Rows [a .. l] on a 12-row
    terminal, scroll region [(5, 10)], cursor on row 10: the line feed
    removes row 4 (["d "], outside the region) instead of row 5, so row 4
    now shows ["e "]. *)
Theorem C3_region_scroll_takes_row_above_region :
  let lines := [str "a"; str "b"; str "c"; str "d"; str "e"; str "f";
                str "g"; str "h"; str "i"; str "j"; str "k"; str "l"] in
  let fill := concat (map (fun l => l ++ [CR; LF]) (take 11 lines)) ++ str "l" in
  let before :=
    mkTerminal 2 12 (5, 10) 10 1 []
      (map (fun l => l ++ [SP]) lines) in
  let after :=
    mkTerminal 2 12 (5, 10) 10 1 []
      [str "a "; str "b "; str "c "; str "e "; str "f "; str "g ";
       str "h "; str "i "; str "j "; str "  "; str "k "; str "l "] in
  feed [fill; ESC :: str "[5;10r"; ESC :: str "[10;1H"] (init 2 12) = Ok before ∧
  append [LF] before = Ok after ∧
  cell before 4 1 = Some "d" ∧ cell after 4 1 = Some "e".
Proof. vm_compute. by split_and!. Qed.

(** C4 (the code at the failing input).  The ten characters
    [ESC [ 0 ; 0 ; 0 ; 0 m] are one no-op sequence when they arrive in one
    call.  Split after the eighth character, the first call finds no match
    in a buffer that is exactly 8 long, which is not short enough for the
    deferral test [i > len(data) - 8], so the introducer is dropped and the
    rest is written to the grid. *)
Theorem C4_split_sequence_is_written_out :
  append (ESC :: str "[0;0;0;0m") (init 10 2) = Ok (init 10 2) ∧
  feed [ESC :: str "[0;0;0;"; str "0m"] (init 10 2) =
    Ok (mkTerminal 10 2 (1, 2) 1 10 [] [str "[0;0;0;0m "; str "          "]).
Proof. vm_compute. by split. Qed.

(** C6 (the code at the failing input).  A backspace at column 1 leaves
    the cursor at column 0, and the cell it blanks, like the cell the next
    character is written to, is the LAST column of the row. *)
Theorem C6_backspace_at_column_1_underflows :
  append [BS] (init 3 2) =
    Ok (mkTerminal 3 2 (1, 2) 1 0 [] [str "   "; str "   "]) ∧
  append (str "abc" ++ [BS]) (init 3 2) =
    Ok (mkTerminal 3 2 (1, 2) 2 0 [] [str "abc"; str "   "]) ∧
  append [BS; "x"] (init 3 2) =
    Ok (mkTerminal 3 2 (1, 2) 1 1 [] [str "  x"; str "   "]).
Proof. vm_compute. by split_and!. Qed.

(** ** Relative moves *)

Lemma with_cursor_id t : with_cursor (row t) (col t) t = t.
Proof. by destruct t. Qed.

Lemma rel_inside t dr dc top bot :
  scroll t = (top, bot) →
  top ≤ Py.or1 (row t + dr) ≤ bot →
  1 ≤ Py.or1 (col t + dc) ≤ cols t →
  rel (Some dr) (Some dc) t =
    Ok (with_cursor (Py.or1 (row t + dr)) (Py.or1 (col t + dc)) t).
Proof.
  intros Hs Hr Hc. unfold rel, move. simpl. rewrite Hs.
  rewrite (bool_decide_eq_false_2 (_ > cols t)) by lia.
  rewrite (bool_decide_eq_false_2 (_ < 1)) by lia.
  rewrite (bool_decide_eq_false_2 (_ < top)) by lia.
  by rewrite (bool_decide_eq_false_2 (_ > bot)) by lia.
Qed.

(** C5 (as amended).  For every in-bounds cursor position whose row lies
    in the scroll region, a relative move whose delta on an axis is zero
    leaves that axis unchanged: [rel(0, 0)] changes nothing, [rel] with
    [d_row = 0] keeps the row as long as the column does not wrap
    ([0 <= col + d_col <= cols]), and [rel] with [d_col = 0] keeps the
    column whenever it returns, whatever happens to the row (it does
    return when the target row is in the region).  What is replaced by 1
    is a target coordinate of exactly 0: [col + d_col = 0] gives column 1
    and, when row 1 is in the region, [row + d_row = 0] gives row 1. *)
Theorem C5_rel_zero_delta_keeps_axis (t : Terminal) (top bot : Z) :
  1 ≤ row t ≤ rows t → 1 ≤ col t ≤ cols t →
  scroll t = (top, bot) → top ≤ row t ≤ bot →
  rel (Some 0) (Some 0) t = Ok t ∧
  (∀ dc, 0 ≤ col t + dc ≤ cols t →
     ∃ t', rel (Some 0) (Some dc) t = Ok t' ∧ row t' = row t) ∧
  (∀ dr t', rel (Some dr) (Some 0) t = Ok t' → col t' = col t) ∧
  (∀ dr, top ≤ Py.or1 (row t + dr) ≤ bot →
     ∃ t', rel (Some dr) (Some 0) t = Ok t' ∧ col t' = col t) ∧
  (∀ dc, col t + dc = 0 →
     ∃ t', rel (Some 0) (Some dc) t = Ok t' ∧ col t' = 1) ∧
  (∀ dr, row t + dr = 0 → top ≤ 1 →
     ∃ t', rel (Some dr) (Some 0) t = Ok t' ∧ row t' = 1).
Proof.
  intros Hrow Hcol Hs Hreg.
  assert (Py.or1 (row t + 0) = row t) as Hr0.
  { unfold Py.or1. rewrite bool_decide_eq_false_2 by lia. lia. }
  assert (Py.or1 (col t + 0) = col t) as Hc0.
  { unfold Py.or1. rewrite bool_decide_eq_false_2 by lia. lia. }
  split_and!.
  - rewrite (rel_inside t 0 0 top bot) by (done || lia).
    by rewrite Hr0, Hc0, with_cursor_id.
  - intros dc Hdc. eexists. split.
    + apply (rel_inside t 0 dc top bot); [done|lia|].
      unfold Py.or1. case_bool_decide; lia.
    + simpl. done.
  - intros dr t' H. unfold rel, move in H. simpl in H.
    rewrite Hc0, Hs in H.
    rewrite (bool_decide_eq_false_2 (col t > cols t)) in H by lia.
    rewrite (bool_decide_eq_false_2 (col t < 1)) in H by lia.
    destruct (bool_decide (_ > bot)).
    + inv_bind H. by injection H as <-.
    + by injection H as <-.
  - intros dr Hdr. eexists. split.
    + apply (rel_inside t dr 0 top bot); [done|done|lia].
    + simpl. done.
  - intros dc Hdc. eexists. split.
    + apply (rel_inside t 0 dc top bot); [done|lia|].
      unfold Py.or1. case_bool_decide; lia.
    + simpl. unfold Py.or1. by rewrite bool_decide_eq_true_2.
  - intros dr Hdr Htop1. eexists. split.
    + apply (rel_inside t dr 0 top bot); [done| |lia].
      unfold Py.or1. rewrite bool_decide_eq_true_2 by done. lia.
    + simpl. unfold Py.or1. by rewrite bool_decide_eq_true_2.
Qed.

Lemma C5_witness :
  let t := mkTerminal 3 3 (1, 3) 2 2 [] [str "   "; str "   "; str "   "] in
  rel (Some 0) (Some 0) t = Ok t ∧
  (∀ dc, 0 ≤ col t + dc ≤ cols t →
     ∃ t', rel (Some 0) (Some dc) t = Ok t' ∧ row t' = row t) ∧
  (∀ dr t', rel (Some dr) (Some 0) t = Ok t' → col t' = col t) ∧
  (∀ dr, 1 ≤ Py.or1 (row t + dr) ≤ 3 →
     ∃ t', rel (Some dr) (Some 0) t = Ok t' ∧ col t' = col t) ∧
  (∀ dc, col t + dc = 0 →
     ∃ t', rel (Some 0) (Some dc) t = Ok t' ∧ col t' = 1) ∧
  (∀ dr, row t + dr = 0 → 1 ≤ 1 →
     ∃ t', rel (Some dr) (Some 0) t = Ok t' ∧ row t' = 1).
Proof.
  apply (C5_rel_zero_delta_keeps_axis
           (mkTerminal 3 3 (1, 3) 2 2 [] [str "   "; str "   "; str "   "]) 1 3);
    simpl; (reflexivity || lia).
Defined.

(** C5 as stated fails: at the in-bounds position [(2, 2)] of a fresh 3 by 3
    terminal, a relative move with zero deltas (here and through the
    sequence [ESC [ 0 A], which calls [rel(-0, 0)]) leaves the cursor at
    row 2, column 2; neither axis is reset to 1. *)
Lemma C5_counterexample :
  let t := mkTerminal 3 3 (1, 3) 2 2 [] [str "   "; str "   "; str "   "] in
  append (ESC :: str "[2;2H") (init 3 3) = Ok t ∧
  rel (Some 0) (Some 0) t = Ok t ∧
  append (ESC :: str "[0A") t = Ok t ∧
  row t ≠ 1 ∧ col t ≠ 1.
Proof. vm_compute. by split_and!. Qed.

(** * Further properties of the code *)

(** ** The key map *)

Lemma KEYMAP_values k v :
  VT100.KEYMAP !! k = Some v →
  v ∈ [String BS EmptyString; String LF EmptyString; String ESC EmptyString;
       " "; String ESC "[A"; String ESC "[B"; String ESC "[C";
       String ESC "[D"]%string.
Proof.
  unfold VT100.KEYMAP. cbn [list_to_map foldr uncurry fst snd].
  repeat (rewrite lookup_insert_Some; intros [[_ <-]|[_ H]];
          [set_solver|revert H]).
  by rewrite lookup_empty.
Qed.

(** X1.  [map] is idempotent: no text produced for a key name is itself a
    key name, so translating the result again changes nothing. *)
Theorem X1_map_idempotent (key : string) :
  VT100.map (VT100.map key) = VT100.map key.
Proof.
  unfold VT100.map at 2 3.
  destruct (VT100.KEYMAP !! key) as [v|] eqn:E; simpl.
  - apply KEYMAP_values in E.
    repeat (apply elem_of_cons in E as [->|E]; [by vm_compute|]).
    by apply elem_of_nil in E.
  - unfold VT100.map. by rewrite E.
Qed.

(** X2.  In every terminal state with no residue pending, feeding the text
    that [map] gives for an arrow key raises [TypeError]. *)
Theorem X2_arrow_keys_raise (t : Terminal) (key : string) :
  pending t = [] →
  key ∈ ["up"; "down"; "right"; "left"]%string →
  append (str (VT100.map key)) t = Raise TypeError.
Proof.
  intros Hp Hkey. unfold append. rewrite with_pending_id, Hp by done.
  repeat (apply elem_of_cons in Hkey as [->|Hkey]; [by vm_compute|]).
  by apply elem_of_nil in Hkey.
Qed.

Lemma X2_witness :
  append (str (VT100.map "left")) (init 80 24) = Raise TypeError.
Proof.
  apply (X2_arrow_keys_raise (init 80 24) "left"); [reflexivity|].
  set_solver.
Defined.

(** ** What the cursor operations touch *)

Lemma timesM_buf n body t t' :
  (∀ u u', body u = Ok u' → ∃ b, u' = with_buf b u) →
  timesM n body t = Ok t' → ∃ b, t' = with_buf b t.
Proof.
  intros Hbody. revert t. induction n as [|n IH]; simpl; intros t H.
  - injection H as <-. exists (buf t). by destruct t.
  - inv_bind H. apply Hbody in Hx as [b1 ->].
    apply IH in H as [b2 ->]. by exists b2.
Qed.

(** [del_lines] changes nothing but the buffer. *)
Lemma del_lines_buf num r t t' :
  del_lines num r t = Ok t' → ∃ b, t' = with_buf b t.
Proof.
  unfold del_lines. apply timesM_buf. intros u u' H.
  inv_bind H. injection H as <-. by eexists.
Qed.

(** [move] changes nothing but the buffer and the cursor. *)
Lemma move_touches r c rl t t' :
  move r c rl t = Ok t' → ∃ b r' c', t' = with_cursor r' c' (with_buf b t).
Proof.
  intros H. unfold move in H. inv_bind H. destruct x as [r1 c1].
  destruct (bool_decide (c1 > cols t)), (bool_decide (_ < 1));
    destruct (scroll t) as [start end_];
    (case_bool_decide;
     [ inv_bind H; injection H as <-;
       apply del_lines_buf in Hx0 as [b ->]; by do 3 eexists
     | injection H as <-; exists (buf t); do 2 eexists; by destruct t ]).
Qed.

Lemma move_frame r c rl t t' : move r c rl t = Ok t' → frame t t'.
Proof. intros H. by apply move_touches in H as (b & r' & c' & ->). Qed.

(** X3.  When [move] returns, the cursor is normalised: the column is in
    [1 .. cols] (on a terminal with at least one column), the row is at
    most the bottom of the scroll region, and at least its top when the
    region is not empty. *)
Theorem X3_move_normalises (r c : option Z) (rl : bool) (t t' : Terminal) :
  1 ≤ cols t →
  move r c rl t = Ok t' →
  1 ≤ col t' ≤ cols t ∧
  row t' ≤ snd (scroll t) ∧
  (fst (scroll t) ≤ snd (scroll t) → fst (scroll t) ≤ row t').
Proof.
  intros Hcols H. unfold move in H. inv_bind H. destruct x as [r1 c1].
  clear Hx.
  destruct (scroll t) as [start end_] eqn:Hs. simpl.
  repeat case_bool_decide.
  all: try (inv_bind H; apply del_lines_buf in Hx as [b ->]).
  all: injection H as <-; simpl; lia.
Qed.

Lemma X3_witness :
  let t := init 3 2 in
  let t' := mkTerminal 3 2 (1, 2) 1 3 [] [str "   "; str "   "] in
  1 ≤ col t' ≤ cols t ∧
  row t' ≤ snd (scroll t) ∧
  (fst (scroll t) ≤ snd (scroll t) → fst (scroll t) ≤ row t').
Proof.
  apply (X3_move_normalises (Some (-5)) (Some 0) false (init 3 2)
           (mkTerminal 3 2 (1, 2) 1 3 [] [str "   "; str "   "]));
    [simpl; lia|reflexivity].
Defined.

(** ** Deleting lines *)

Lemma rotate_lookup {A} (l : list A) (i k j : nat) (x : A) :
  (i ≤ k < length l)%nat →
  (take k (delete i l) ++ x :: drop k (delete i l)) !! j =
    if bool_decide (j < i ∨ k < j)%nat then l !! j
    else if bool_decide (j < k)%nat then l !! S j
    else Some x.
Proof.
  intros Hik.
  assert (length (delete i l) = length l - 1)%nat as Hd.
  { rewrite length_delete; [lia|]. apply lookup_lt_is_Some_2. lia. }
  destruct (decide (j < k)%nat) as [Hjk|Hjk].
  - rewrite lookup_app_l by (rewrite length_take; lia).
    rewrite lookup_take_lt by done.
    destruct (decide (j < i)%nat).
    + rewrite bool_decide_eq_true_2 by lia. by apply list_lookup_delete_lt.
    + rewrite bool_decide_eq_false_2 by lia.
      rewrite bool_decide_eq_true_2 by lia. apply list_lookup_delete_ge. lia.
  - rewrite lookup_app_r by (rewrite length_take; lia).
    rewrite length_take, Hd.
    replace (k `min` (length l - 1))%nat with k by lia.
    destruct (decide (j = k)) as [->|Hne].
    + rewrite Nat.sub_diag. simpl.
      by rewrite !bool_decide_eq_false_2 by lia.
    + rewrite bool_decide_eq_true_2 by lia.
      replace (j - k)%nat with (S (j - k - 1)) by lia. simpl.
      rewrite lookup_drop, list_lookup_delete_ge by lia.
      f_equal. lia.
Qed.

Lemma del_lines_one cs rs top bot t r :
  grid_ok cs rs t → scroll t = (top, bot) → 1 ≤ r ≤ bot → bot ≤ rs →
  del_lines 1 (Some r) t =
    Ok (with_buf
          (take (Z.to_nat (bot - 1)) (delete (Z.to_nat (r - 1)) (buf t)) ++
           blank_line t ::
           drop (Z.to_nat (bot - 1)) (delete (Z.to_nat (r - 1)) (buf t))) t).
Proof.
  intros (Hc & Hr & Hlen & Hall) Hs Hrow Hbot.
  unfold del_lines. change (Z.to_nat 1) with 1%nat. cbn [timesM default].
  unfold id, Py.del. rewrite index_nonneg by lia. simpl. rewrite Hs. simpl.
  do 2 f_equal. unfold Py.insert. cbv zeta.
  rewrite bool_decide_eq_false_2 by lia.
  rewrite length_delete by (apply lookup_lt_is_Some_2; lia).
  by replace (Z.to_nat (Z.min _ _)) with (Z.to_nat (bot - 1)) by lia.
Qed.

(** X4.  [del_lines(1, r)] for a row [r] of the grid at or above the bottom
    of the scroll region removes row [r]: the rows from [r + 1] to the
    bottom of the region move up by one, the bottom row of the region
    becomes a blank line, and the rows above [r] and below the region stay
    as they are.  Cursor, region and residue are untouched. *)
Theorem X4_del_lines_rotates (cs rs top bot : Z) (t : Terminal) (r : Z) :
  grid_ok cs rs t → scroll t = (top, bot) → 1 ≤ r ≤ bot → bot ≤ rs →
  ∃ b, del_lines 1 (Some r) t = Ok (with_buf b t) ∧
       length b = length (buf t) ∧
       ∀ r', 1 ≤ r' →
         b !! Z.to_nat (r' - 1) =
           if bool_decide (r' < r ∨ bot < r') then buf t !! Z.to_nat (r' - 1)
           else if bool_decide (r' < bot) then buf t !! Z.to_nat r'
           else Some (blank_line t).
Proof.
  intros Hok Hs Hrow Hbot. pose proof Hok as (Hc & Hr & Hlen & Hall).
  eexists. split; [by eapply del_lines_one|]. split.
  - rewrite length_app. simpl. rewrite length_take, length_drop.
    rewrite length_delete by (apply lookup_lt_is_Some_2; lia). lia.
  - intros r' Hr'. rewrite rotate_lookup by lia.
    repeat case_bool_decide; try lia; try done.
    f_equal. lia.
Qed.

Lemma X4_witness :
  let t := mkTerminal 1 4 (1, 3) 1 1 [] [str "a"; str "b"; str "c"; str "d"] in
  ∃ b, del_lines 1 (Some 2) t = Ok (with_buf b t) ∧
       length b = length (buf t) ∧
       ∀ r', 1 ≤ r' →
         b !! Z.to_nat (r' - 1) =
           if bool_decide (r' < 2 ∨ 3 < r') then buf t !! Z.to_nat (r' - 1)
           else if bool_decide (r' < 3) then buf t !! Z.to_nat r'
           else Some (blank_line t).
Proof.
  apply (X4_del_lines_rotates 1 4 1 3
           (mkTerminal 1 4 (1, 3) 1 1 [] [str "a"; str "b"; str "c"; str "d"]) 2);
    [concrete_grid|reflexivity|lia|lia].
Defined.

(** ** What a scroll does to the rows *)

(** X5.  With a scroll region whose top is row 2 or lower, a move to a row
    below the region's bottom removes the row just ABOVE the region: that
    row and the rows of the region except the last each take the content of
    the row below them, the bottom row of the region becomes blank, the
    rows further up and below the region stay, and the cursor lands on the
    bottom row of the region. *)
Theorem X5_region_scroll_rows (cs rs top bot : Z) (t : Terminal) (r c : Z) :
  grid_ok cs rs t → scroll t = (top, bot) →
  2 ≤ top → top ≤ bot → bot ≤ rs → bot < r → 1 ≤ c ≤ cs →
  ∃ b, move (Some r) (Some c) false t = Ok (with_cursor bot c (with_buf b t)) ∧
       ∀ r', 1 ≤ r' →
         b !! Z.to_nat (r' - 1) =
           if bool_decide (r' < top - 1 ∨ bot < r') then buf t !! Z.to_nat (r' - 1)
           else if bool_decide (r' < bot) then buf t !! Z.to_nat r'
           else Some (blank_line t).
Proof.
  intros Hok Hs Htop Htb Hbot Hr Hc.
  pose proof Hok as (Hcols & _ & Hlen & _).
  eexists. split.
  - unfold move. simpl. rewrite Hs.
    rewrite (bool_decide_eq_false_2 (c > cols t)) by lia.
    rewrite (bool_decide_eq_false_2 (c < 1)) by lia.
    rewrite (bool_decide_eq_false_2 (r < top)) by lia.
    rewrite (bool_decide_eq_true_2 (r > bot)) by lia.
    by rewrite (del_lines_one cs rs top bot) by (done || lia).
  - intros r' Hr'. rewrite rotate_lookup by lia.
    repeat case_bool_decide; try lia; try done.
    f_equal. lia.
Qed.

Lemma X5_witness :
  let t := mkTerminal 1 4 (2, 3) 3 1 [] [str "a"; str "b"; str "c"; str "d"] in
  ∃ b, move (Some 4) (Some 1) false t = Ok (with_cursor 3 1 (with_buf b t)) ∧
       ∀ r', 1 ≤ r' →
         b !! Z.to_nat (r' - 1) =
           if bool_decide (r' < 2 - 1 ∨ 3 < r') then buf t !! Z.to_nat (r' - 1)
           else if bool_decide (r' < 3) then buf t !! Z.to_nat r'
           else Some (blank_line t).
Proof.
  apply (X5_region_scroll_rows 1 4 2 3
           (mkTerminal 1 4 (2, 3) 3 1 [] [str "a"; str "b"; str "c"; str "d"])
           4 1);
    [concrete_grid|reflexivity|lia..].
Defined.

(** X6.  With the default scroll region, a move to a row below the last
    one keeps every row but the last as it is and where it is, makes the
    last row blank, and puts the cursor on the last row. *)
Theorem X6_default_scroll_rows (cs rs : Z) (t : Terminal) (r c : Z) :
  grid_ok cs rs t → 1 ≤ rs → scroll t = (1, rs) →
  rs < r → 1 ≤ c ≤ cs →
  ∃ b, move (Some r) (Some c) false t = Ok (with_cursor rs c (with_buf b t)) ∧
       length b = length (buf t) ∧
       (∀ r', 1 ≤ r' < rs → b !! Z.to_nat (r' - 1) = buf t !! Z.to_nat (r' - 1)) ∧
       b !! Z.to_nat (rs - 1) = Some (blank_line t).
Proof.
  intros Hok Hrs Hs Hr Hc. pose proof Hok as (_ & _ & Hlen & _).
  eexists. split; [by eapply move_past_bottom_default|]. split_and!.
  - rewrite length_app, length_take. simpl. lia.
  - intros r' Hr'. rewrite lookup_app_l by (rewrite length_take; lia).
    apply lookup_take_lt. lia.
  - rewrite lookup_app_r by (rewrite length_take; lia).
    rewrite length_take.
    by replace (Z.to_nat (rs - 1) - _)%nat with 0%nat by lia.
Qed.

Lemma X6_witness :
  let t := mkTerminal 1 3 (1, 3) 3 1 [] [str "a"; str "b"; str "c"] in
  ∃ b, move (Some 4) (Some 1) false t = Ok (with_cursor 3 1 (with_buf b t)) ∧
       length b = length (buf t) ∧
       (∀ r', 1 ≤ r' < 3 → b !! Z.to_nat (r' - 1) = buf t !! Z.to_nat (r' - 1)) ∧
       b !! Z.to_nat (3 - 1) = Some (blank_line t).
Proof.
  apply (X6_default_scroll_rows 1 3
           (mkTerminal 1 3 (1, 3) 3 1 [] [str "a"; str "b"; str "c"]) 4 1);
    [concrete_grid|lia|reflexivity|lia|lia].
Defined.

Lemma timesM_add n m body t :
  timesM (n + m) body t = t1 ← timesM n body t; timesM m body t1.
Proof.
  revert t. induction n as [|n IH]; intros t; [done|].
  simpl. destruct (body t) as [u|e]; [|done]. simpl. apply IH.
Qed.

(** X7.  Deleting [a + b] lines is deleting [a] lines and then [b] lines,
    at an explicit row as well as at the cursor row, errors included. *)
Theorem X7_del_lines_add (a b : Z) (r : option Z) (t : Terminal) :
  0 ≤ a → 0 ≤ b →
  del_lines (a + b) r t = t1 ← del_lines a r t; del_lines b r t1.
Proof.
  intros Ha Hb.
  destruct (del_lines a r t) as [t1|e] eqn:E; simpl.
  - pose proof E as Hbuf. apply del_lines_buf in Hbuf as [b1 ->].
    unfold del_lines in *. rewrite Z2Nat.inj_add, timesM_add by done.
    simpl row. by rewrite E.
  - unfold del_lines in *. rewrite Z2Nat.inj_add, timesM_add by done.
    by rewrite E.
Qed.

Lemma X7_witness :
  let t := mkTerminal 1 4 (1, 3) 2 1 [] [str "a"; str "b"; str "c"; str "d"] in
  del_lines (1 + 1) None t = t1 ← del_lines 1 None t; del_lines 1 None t1.
Proof.
  apply (X7_del_lines_add 1 1 None
           (mkTerminal 1 4 (1, 3) 2 1 [] [str "a"; str "b"; str "c"; str "d"]));
    lia.
Defined.

(** ** Reading the dump *)

Lemma dump_lookup (n : nat) (b : list (list ascii)) : ∀ i j line,
  Forall (fun l => length l = n) b →
  b !! i = Some line → (j ≤ n)%nat →
  concat (map (fun l => l ++ [LF]) b) !! (i * S n + j)%nat =
    (line ++ [LF]) !! j.
Proof.
  induction b as [|l b IH]; intros i j line Hall Hi Hj; [done|].
  apply Forall_cons_1 in Hall as [Hl Hall].
  cbn [map concat]. destruct i as [|i]; simpl in Hi.
  - injection Hi as ->. simpl.
    apply lookup_app_l. rewrite length_app. simpl. lia.
  - rewrite lookup_app_r by (rewrite length_app; simpl; lia).
    rewrite length_app, Hl. simpl length.
    replace (S i * S n + j - (n + 1))%nat with (i * S n + j)%nat by lia.
    by apply IH.
Qed.

(** X8.  On a well-shaped grid, the character of [dump] at offset
    [(r - 1) * (cols + 1) + (c - 1)] is the cell at row [r], column [c],
    and the character that ends each row, at offset
    [(r - 1) * (cols + 1) + cols], is a line feed. *)
Theorem X8_dump_reads_cells (cs rs : Z) (t : Terminal) (r c : Z) :
  grid_ok cs rs t → 1 ≤ r ≤ rs → 1 ≤ c ≤ cs →
  dump t !! Z.to_nat ((r - 1) * (cs + 1) + (c - 1)) = cell t r c ∧
  dump t !! Z.to_nat ((r - 1) * (cs + 1) + cs) = Some LF.
Proof.
  intros (Hc & Hr & Hlen & Hall) Hrow Hcol.
  destruct (lookup_lt_is_Some_2 (buf t) (Z.to_nat (r - 1))) as [line Hline];
    [lia|].
  assert (length line = Z.to_nat cs) as Hl by by eapply Forall_lookup_1 in Hall.
  unfold dump, cell. rewrite Hline. simpl. split.
  - replace (Z.to_nat ((r - 1) * (cs + 1) + (c - 1)))
      with (Z.to_nat (r - 1) * S (Z.to_nat cs) + Z.to_nat (c - 1))%nat by nia.
    rewrite (dump_lookup (Z.to_nat cs) (buf t) _ _ line) by (done || lia).
    apply lookup_app_l. lia.
  - replace (Z.to_nat ((r - 1) * (cs + 1) + cs))
      with (Z.to_nat (r - 1) * S (Z.to_nat cs) + Z.to_nat cs)%nat by nia.
    rewrite (dump_lookup (Z.to_nat cs) (buf t) _ _ line) by (done || lia).
    rewrite lookup_app_r by lia. rewrite Hl, Nat.sub_diag. done.
Qed.

Lemma X8_witness :
  let t := mkTerminal 3 2 (1, 2) 1 1 [] [str "abc"; str "def"] in
  dump t !! Z.to_nat ((2 - 1) * (3 + 1) + (3 - 1)) = cell t 2 3 ∧
  dump t !! Z.to_nat ((2 - 1) * (3 + 1) + 3) = Some LF.
Proof.
  apply (X8_dump_reads_cells 3 2
           (mkTerminal 3 2 (1, 2) 1 1 [] [str "abc"; str "def"]) 2 3);
    [concrete_grid|lia|lia].
Defined.

(** ** Fixed sequences and bare control characters *)

Lemma cell_reset t r c :
  1 ≤ r ≤ rows t → 1 ≤ c ≤ cols t → cell (reset t) r c = Some SP.
Proof.
  intros Hr Hc. unfold cell, reset. simpl.
  rewrite lookup_replicate_2 by lia. simpl.
  unfold blank_line, Py.times. apply lookup_replicate_2. lia.
Qed.

(** X9.  [ESC [ 2 J] rebuilds the grid, whatever its state was: afterwards
    it has [rows] rows of [cols] cells, every cell is a space, and cursor
    and scroll region are where they were. *)
Theorem X9_clear_screen (t : Terminal) :
  pending t = [] →
  ∃ t', append (ESC :: str "[2J") t = Ok t' ∧
        grid_ok (cols t) (rows t) t' ∧
        row t' = row t ∧ col t' = col t ∧ scroll t' = scroll t ∧
        ∀ r c, 1 ≤ r ≤ rows t → 1 ≤ c ≤ cols t → cell t' r c = Some SP.
Proof.
  intros Hp. exists (reset t). split_and!; try done.
  - unfold append. rewrite with_pending_id, Hp by done.
    by cbv -[reset].
  - by apply reset_ok.
  - apply cell_reset.
Qed.

Lemma X9_witness :
  let t := mkTerminal 2 2 (1, 2) 2 1 [] [str "abc"; str "d"; str "e"] in
  ∃ t', append (ESC :: str "[2J") t = Ok t' ∧
        grid_ok (cols t) (rows t) t' ∧
        row t' = row t ∧ col t' = col t ∧ scroll t' = scroll t ∧
        ∀ r c, 1 ≤ r ≤ rows t → 1 ≤ c ≤ cols t → cell t' r c = Some SP.
Proof.
  apply (X9_clear_screen
           (mkTerminal 2 2 (1, 2) 2 1 [] [str "abc"; str "d"; str "e"])).
  reflexivity.
Defined.

(** X10.  [ESC [ H] sends the cursor to column 1 of the first row of the
    scroll region (row 1 when the region starts above it), and changes
    nothing else. *)
Theorem X10_home_goes_to_region_top (t : Terminal) (top bot : Z) :
  pending t = [] → scroll t = (top, bot) →
  1 ≤ cols t → top ≤ bot → 1 ≤ bot →
  append (ESC :: str "[H") t = Ok (with_cursor (Z.max 1 top) 1 t).
Proof.
  intros Hp Hs Hc Htb Hb.
  unfold append. rewrite with_pending_id, Hp by done.
  change ([] ++ ESC :: str "[H") with [ESC; "["; "H"].
  cbn [length scan].
  assert (pre [ESC; "["; "H"] 0 t =
            t' ← move (Some 1) (Some 1) false t; Ok (Some 3%nat, t')) as ->.
  { cbv -[move]. by destruct (move _ _ _ t). }
  assert (move (Some 1) (Some 1) false t = Ok (with_cursor (Z.max 1 top) 1 t))
    as ->; [|done].
  unfold move. simpl. rewrite Hs.
  rewrite (bool_decide_eq_false_2 (1 > cols t)) by lia.
  rewrite (bool_decide_eq_false_2 (1 < 1)) by lia.
  destruct (decide (1 < top)).
  - rewrite (bool_decide_eq_true_2 (1 < top)) by done.
    rewrite bool_decide_eq_false_2 by lia. do 2 f_equal. lia.
  - rewrite (bool_decide_eq_false_2 (1 < top)) by done.
    rewrite bool_decide_eq_false_2 by lia. do 2 f_equal. lia.
Qed.

Lemma X10_witness :
  let t := mkTerminal 2 3 (2, 3) 3 2 [] [str "ab"; str "cd"; str "ef"] in
  append (ESC :: str "[H") t = Ok (with_cursor (Z.max 1 2) 1 t).
Proof.
  apply (X10_home_goes_to_region_top
           (mkTerminal 2 3 (2, 3) 3 2 [] [str "ab"; str "cd"; str "ef"]) 2 3);
    [reflexivity|reflexivity|simpl; lia|lia|lia].
Defined.

(** X11.  Carriage return then line feed, with the cursor on a row of the
    scroll region other than its last, moves the cursor to column 1 of the
    next row and changes nothing else. *)
Theorem X11_cr_lf_next_row (t : Terminal) (top bot : Z) :
  pending t = [] → scroll t = (top, bot) →
  1 ≤ cols t → top ≤ row t → row t < bot →
  append [CR; LF] t = Ok (with_cursor (row t + 1) 1 t).
Proof.
  intros Hp Hs Hc Htop Hbot.
  unfold append. rewrite with_pending_id, Hp by done.
  change ([] ++ [CR; LF]) with [CR; LF].
  cbn [length scan].
  assert (pre [CR; LF] 0 t =
            t' ← move (Some (row t)) (Some 1) false t; Ok (Some 1%nat, t')) as ->.
  { cbv -[move row]. by destruct (move _ _ _ t). }
  rewrite (move_inside t (row t) 1 top bot) by (done || lia). simpl.
  set (t1 := with_cursor (row t) 1 t).
  assert (pre [CR; LF] 1 t1 =
            t' ← move (Some (row t1 + 1)) (Some 1) false t1;
            Ok (Some 1%nat, t')) as ->.
  { cbv -[move row Z.add t1]. by destruct (move _ _ _ t1). }
  by rewrite (move_inside t1 (row t1 + 1) 1 top bot) by (done || simpl; lia).
Qed.

Lemma X11_witness :
  let t := mkTerminal 10 5 (1, 5) 3 7 [] (buf (init 10 5)) in
  append [CR; LF] t = Ok (with_cursor (row t + 1) 1 t).
Proof.
  apply (X11_cr_lf_next_row
           (mkTerminal 10 5 (1, 5) 3 7 [] (buf (init 10 5))) 1 5);
    [reflexivity|reflexivity|simpl; lia..].
Defined.

(** X12.  A backspace with the cursor at column 2 or further right, on a
    cell of the grid, moves the cursor one column left, blanks the cell it
    arrives at, and leaves every other cell and the row as they are. *)
Theorem X12_backspace_blanks_left_cell (cs rs : Z) (t : Terminal) :
  grid_ok cs rs t → pending t = [] →
  1 ≤ row t ≤ rs → 2 ≤ col t ≤ cs →
  ∃ t', append [BS] t = Ok t' ∧
        row t' = row t ∧ col t' = col t - 1 ∧
        ∀ r c, 1 ≤ r → 1 ≤ c →
          cell t' r c =
            if bool_decide (r = row t ∧ c = col t - 1)
            then Some SP else cell t r c.
Proof.
  intros Hok Hp Hrow Hcol.
  unfold append. rewrite with_pending_id, Hp by done.
  change ([] ++ [BS]) with [BS].
  cbn [length scan].
  assert (pre [BS] 0 t =
            t1 ← puts [SP] false (with_col (Z.max 0 (col t - 1)) t);
            Ok (Some 1%nat, t1)) as ->.
  { cbv -[puts with_col Z.max Z.sub col]. by destruct (puts _ _ _). }
  replace (Z.max 0 (col t - 1)) with (col t - 1) by lia.
  rewrite (puts_char cs rs) by (simpl; done || lia). simpl.
  eexists. split; [done|]. split_and!; try done.
  intros r c Hr Hc.
  change (cell (with_buf ?b (with_col ?x ?u))) with (cell (with_buf b u)).
  by rewrite (cell_set_cell cs rs t (row t) (col t - 1)) by (done || lia).
Qed.

Lemma X12_witness :
  let t := mkTerminal 3 2 (1, 2) 1 3 [] [str "abc"; str "def"] in
  ∃ t', append [BS] t = Ok t' ∧
        row t' = row t ∧ col t' = col t - 1 ∧
        ∀ r c, 1 ≤ r → 1 ≤ c →
          cell t' r c =
            if bool_decide (r = row t ∧ c = col t - 1)
            then Some SP else cell t r c.
Proof.
  apply (X12_backspace_blanks_left_cell 3 2
           (mkTerminal 3 2 (1, 2) 1 3 [] [str "abc"; str "def"]));
    [concrete_grid|reflexivity|simpl; lia..].
Defined.

(** ** The matcher *)

Lemma span_app p s a b : span p s = (a, b) → s = a ++ b.
Proof.
  revert a b. induction s as [|c s IH]; simpl; intros a b H.
  - by injection H as <- <-.
  - destruct (p c).
    + destruct (span p s) as [a' b']. injection H as <- <-.
      simpl. f_equal. by apply IH.
    + by injection H as <- <-.
Qed.

(** The matched text is a prefix of the context. *)
Lemma re_match_prefix r : ∀ s m gs,
  re_match r s = Some (m, gs) → m `prefix_of` s.
Proof.
  induction r as [|p r IH]; intros s m gs H.
  - injection H as <- <-. apply prefix_nil.
  - destruct p; simpl in H.
    + destruct s as [|c' s]; [done|]. destruct (Ascii.eqb c c'); [|done].
      destruct (re_match r s) as [[m' gs']|] eqn:E; [|done].
      injection H as <- <-. apply prefix_cons. by eapply IH.
    + destruct s as [|c' s]; [done|]. destruct (existsb _ cs); [|done].
      destruct (re_match r s) as [[m' gs']|] eqn:E; [|done].
      injection H as <- <-. apply prefix_cons. by eapply IH.
    + destruct (span isdigit_char s) as [ds s'] eqn:Hsp.
      apply span_app in Hsp as ->.
      destruct ds as [|d ds]; [done|].
      destruct (re_match r s') as [[m' gs']|] eqn:E; [|done].
      injection H as <- <-.
      change (d :: ds ++ m') with ((d :: ds) ++ m').
      apply prefix_app. by eapply IH.
    + destruct (span _ s) as [ds s'] eqn:Hsp.
      apply span_app in Hsp as ->.
      destruct (re_match r s') as [[m' gs']|] eqn:E; [|done].
      injection H as <- <-. apply prefix_app. by eapply IH.
Qed.

Lemma control_starts_with_literal :
  Forall (fun rule => ∃ c r, rule.1 = Lit c :: r) control.
Proof.
  unfold control, REGEX, SIMPLE; simpl.
  repeat apply Forall_cons_2; try apply Forall_nil_2; simpl; by do 2 eexists.
Qed.

Lemma first_match_count rules context t n t' :
  Forall (fun rule => ∃ c r, rule.1 = Lit c :: r) rules →
  first_match rules context t = Ok (n, t') →
  n = 0%nat ∨ (2 ≤ n ≤ S (length context))%nat.
Proof.
  induction 1 as [|[r func] rules (c & r' & Hr) _ IH]; simpl; intros H.
  - left. by injection H as <- _.
  - simpl in Hr. subst r.
    destruct (re_match (Lit c :: r') context) as [[m gs]|] eqn:E; [|by apply IH].
    right. inv_bind H. destruct x as [k t1]. injection H as <- _.
    assert (k = length m) as ->.
    { unfold call in Hx. destruct func.
      - inv_bind Hx. by injection Hx as <- _.
      - by injection Hx as <- _. }
    pose proof (re_match_prefix _ _ _ _ E) as Hpre.
    apply prefix_length in Hpre.
    simpl in E. destruct context as [|c' s]; [done|].
    destruct (Ascii.eqb c c'); [|done].
    destruct (re_match r' s) as [[m' gs']|]; [|done].
    injection E as <- _. simpl in *. lia.
Qed.

(** X13.  [sequence] returns 0 or a count between 2 and 10, and the count
    never reaches past the end of the data: [i + count <= len(data)]. *)
Theorem X13_sequence_count (data : text) (i : nat) (t t' : Terminal) (n : nat) :
  sequence data i t = Ok (n, t') →
  n = 0%nat ∨ (2 ≤ n ≤ 10 ∧ i + n ≤ length data)%nat.
Proof.
  unfold sequence. intros H.
  destruct (take 9 (drop (S i) data)) as [|c context] eqn:E.
  - left. by injection H as <- _.
  - rewrite <- E in H.
    apply first_match_count in H as [->|Hn];
      [by left|right|apply control_starts_with_literal].
    assert (length (take 9 (drop (S i) data)) ≠ 0)%nat as Hne
      by (rewrite E; done).
    rewrite length_take, length_drop in Hn, Hne. lia.
Qed.

Lemma X13_witness :
  3%nat = 0%nat ∨ (2 ≤ 3 ≤ 10 ∧ 2 + 3 ≤ length (str "ab" ++ ESC :: str "[Hcd"))%nat.
Proof.
  apply (X13_sequence_count (str "ab" ++ ESC :: str "[Hcd") 2 (init 3 3)
           (init 3 3) 3).
  reflexivity.
Defined.

(** ** An invariant rule for [append] *)

Section invariant.
Context (P : Terminal → Prop).
Context (Pbuf : ∀ b t, P t → P (with_buf b t)).
Context (Pmove : ∀ r c rl t t', P t → move r c rl t = Ok t' → P t').
Context (Pscroll : ∀ s t, P t → P (with_scroll s t)).
Context (Pbs : ∀ t, P t → P (with_col (Z.max 0 (col t - 1)) t)).
Context (Prestore : ∀ t t', P t → P t' → P (with_cursor (row t) (col t) t')).

Lemma del_lines_inv num r t t' : P t → del_lines num r t = Ok t' → P t'.
Proof. intros HP H. apply del_lines_buf in H as [b ->]. by apply Pbuf. Qed.

Lemma puts_inv s mv t t' : P t → puts s mv t = Ok t' → P t'.
Proof.
  unfold puts. apply forM_preserves.
  intros ch u u' HP H. inv_bind H.
  destruct mv.
  - eapply Pmove; [|exact H]. by apply Pbuf.
  - injection H as <-. by apply Pbuf.
Qed.

Lemma erase_inv a b t t' : P t → erase a b t = Ok t' → P t'.
Proof.
  intros HP H. unfold erase in H. inv_bind H. injection H as <-.
  apply Prestore; [done|]. revert HP Hx. apply forM_preserves.
  intros r t1 t2. apply forM_preserves.
  intros c u u' Hu H. inv_bind H.
  eapply puts_inv; [|done]. by eapply Pmove.
Qed.

Lemma control_inv :
  Forall (fun rule => ∀ h, rule.2 = Some h →
            ∀ g t t', P t → h g t = Ok t' → P t') control.
Proof.
  unfold control, REGEX, SIMPLE; simpl.
  repeat apply Forall_cons_2; try apply Forall_nil_2;
    simpl; intros h [= <-] g t t' HP H;
    unfold with_g0, with_g01, rel in H; inv_bind H;
    try (injection H as <-);
    eauto using del_lines_inv, erase_inv.
Qed.

Lemma first_match_inv rules context t n t' :
  Forall (fun rule => ∀ h, rule.2 = Some h →
            ∀ g t t', P t → h g t = Ok t' → P t') rules →
  P t → first_match rules context t = Ok (n, t') → P t'.
Proof.
  induction 1 as [|[r func] rules Hh _ IH]; simpl; intros HP H.
  - by injection H as _ <-.
  - destruct (re_match r context) as [[m gs]|]; [|by apply IH].
    inv_bind H. destruct x as [k t1]. injection H as _ <-.
    unfold call in Hx. destruct func as [h|].
    + inv_bind Hx. injection Hx as _ <-. by eapply (Hh h).
    + by injection Hx as _ <-.
Qed.

Lemma pre_inv data i t p t' : P t → pre data i t = Ok (p, t') → P t'.
Proof.
  unfold pre. intros HP H. inv_bind H. rename x into b.
  destruct (Ascii.eqb b ESC).
  { inv_bind H. destruct x as [k t1]. injection H as _ <-.
    unfold sequence in Hx0. destruct (take 9 (drop (S i) data)).
    - by injection Hx0 as _ <-.
    - eapply first_match_inv; [apply control_inv|done..]. }
  destruct (Ascii.eqb b BS).
  { inv_bind H. injection H as _ <-.
    eapply puts_inv; [|exact Hx0]. by apply Pbs. }
  destruct (Ascii.eqb b CR).
  { inv_bind H. injection H as _ <-. by eapply Pmove. }
  destruct (Ascii.eqb b LF).
  { inv_bind H. injection H as _ <-. by eapply Pmove. }
  destruct (Ascii.eqb b BEL); by injection H as _ <-.
Qed.

Context (Ppending : ∀ p t, P t → P (with_pending p t)).

Lemma scan_inv data n : ∀ i skip t t',
  P t → scan data n i skip t = Ok t' → P t'.
Proof.
  induction n as [|n IH]; simpl; intros i skip t t' HP H.
  - by injection H as <-.
  - destruct skip as [|k]; [|by eapply IH].
    inv_bind H. destruct x as [p t1].
    assert (P t1) as HP1 by by eapply pre_inv.
    destruct p as [[|k]|].
    + case_bool_decide; [injection H as <-; by apply Ppending|by eapply IH].
    + by eapply IH.
    + inv_bind H. eapply IH; [|done]. by eapply puts_inv.
Qed.

Lemma append_inv chunk t t' : P t → append chunk t = Ok t' → P t'.
Proof. intros HP. unfold append. apply scan_inv. by apply Ppending. Qed.

End invariant.

(** ** What [append] keeps *)

Lemma move_col_range r c rl t t' :
  1 ≤ cols t → move r c rl t = Ok t' →
  cols t' = cols t ∧ rows t' = rows t ∧ 1 ≤ col t' ≤ cols t.
Proof.
  intros Hcols H. unfold move in H. inv_bind H. destruct x as [r1 c1].
  clear Hx. destruct (scroll t) as [start end_].
  repeat case_bool_decide.
  all: try (inv_bind H; apply del_lines_buf in Hx as [b ->]).
  all: injection H as <-; simpl; lia.
Qed.

(** X14.  Whenever [append] returns, the terminal has the dimensions it
    had, and a cursor column that was in [0 .. cols] is again in
    [0 .. cols] (0 is what a backspace at the left edge leaves). *)
Theorem X14_append_keeps_dimensions_and_column
    (chunk : text) (t t' : Terminal) :
  1 ≤ cols t → 0 ≤ col t ≤ cols t →
  append chunk t = Ok t' →
  cols t' = cols t ∧ rows t' = rows t ∧ 0 ≤ col t' ≤ cols t'.
Proof.
  intros Hcols Hcol H.
  cut (cols t' = cols t ∧ rows t' = rows t ∧ 0 ≤ col t' ≤ cols t);
    [intros (-> & -> & ?); done|].
  revert H.
  apply (append_inv
           (fun u => cols u = cols t ∧ rows u = rows t ∧ 0 ≤ col u ≤ cols t));
    try done.
  - intros r c rl u u' (Hc & Hr & Hrange) Hm.
    apply move_col_range in Hm as (-> & -> & ?); [|lia].
    split_and!; try done; lia.
  - intros u (Hc & Hr & Hrange). simpl. split_and!; try done; lia.
  - intros u u' (Hc & Hr & Hrange) (Hc' & Hr' & Hrange'). done.
Qed.

Lemma X14_witness :
  let t' := mkTerminal 3 2 (1, 2) 1 0 [] [str "   "; str "   "] in
  cols t' = cols (init 3 2) ∧ rows t' = rows (init 3 2) ∧
  0 ≤ col t' ≤ cols t'.
Proof.
  apply (X14_append_keeps_dimensions_and_column
           (str "a" ++ [BS; BS]) (init 3 2)
           (mkTerminal 3 2 (1, 2) 1 0 [] [str "   "; str "   "]));
    [simpl; lia|simpl; lia|reflexivity].
Defined.

(** ** The residue *)

Lemma getitem_lookup {A} (l : list A) (i : nat) x :
  Py.getitem l (Z.of_nat i) = Ok x → l !! i = Some x.
Proof.
  unfold Py.getitem, Py.index. cbv zeta.
  case_bool_decide.
  - rewrite Nat2Z.id. by destruct (l !! i) as [y|]; intros [= <-].
  - case_bool_decide; [lia|done].
Qed.

Lemma pre_zero_is_escape data i t t' :
  pre data i t = Ok (Some 0%nat, t') → data !! i = Some ESC.
Proof.
  unfold pre. intros H. inv_bind H. rename x into b.
  apply getitem_lookup in Hx. rewrite Hx. f_equal.
  destruct (Ascii.eqb b ESC) eqn:E; [by apply Ascii.eqb_eq|].
  repeat match type of H with
         | (if ?c then _ else _) = _ => destruct c
         end;
    inv_bind H; discriminate H.
Qed.

Lemma pre_keeps_pending data i t p t' :
  pending t = [] → pre data i t = Ok (p, t') → pending t' = [].
Proof.
  apply (pre_inv (fun u => pending u = [])); try done.
  intros r c rl u u' Hu Hm. apply move_frame in Hm as (_ & _ & _ & ->). done.
Qed.

Lemma puts_keeps_pending s mv t t' :
  pending t = [] → puts s mv t = Ok t' → pending t' = [].
Proof.
  apply (puts_inv (fun u => pending u = [])); try done.
  intros r c rl u u' Hu Hm. apply move_frame in Hm as (_ & _ & _ & ->). done.
Qed.

Lemma scan_residue data n : ∀ i skip t t',
  pending t = [] → scan data n i skip t = Ok t' →
  pending t' = [] ∨
  ∃ j, data !! j = Some ESC ∧ (length data < j + 8)%nat ∧
       pending t' = drop j data.
Proof.
  induction n as [|n IH]; simpl; intros i skip t t' Hp H.
  - injection H as <-. by left.
  - destruct skip as [|k]; [|by eapply IH].
    inv_bind H. destruct x as [p t1].
    assert (pending t1 = []) as Hp1 by by eapply pre_keeps_pending.
    destruct p as [[|k]|].
    + case_bool_decide; [|by eapply IH].
      injection H as <-. right. exists i. split_and!; try done.
      * by eapply pre_zero_is_escape.
      * lia.
    + by eapply IH.
    + inv_bind H. eapply IH; [|done]. by eapply puts_keeps_pending.
Qed.

(** X15.  Whenever [append] returns, the residue it leaves is either empty
    or a tail of the text it scanned (old residue, then the chunk) that
    starts with the escape character and is at most 7 characters long. *)
Theorem X15_residue_is_short_escape_tail (chunk : text) (t t' : Terminal) :
  append chunk t = Ok t' →
  pending t' = [] ∨
  ∃ rest, pending t' = ESC :: rest ∧ (length rest < 7)%nat ∧
          pending t' `suffix_of` (pending t ++ chunk).
Proof.
  unfold append. intros H.
  apply scan_residue in H; [|done].
  destruct H as [Hp|(j & Hj & Hlen & Hp)]; [by left|].
  right. rewrite Hp.
  rewrite (drop_S _ _ _ Hj). eexists. split_and!; [done| |].
  - rewrite length_drop. lia.
  - rewrite <- (drop_S _ _ _ Hj). apply suffix_drop.
Qed.

Lemma X15_witness :
  let t' := mkTerminal 3 2 (1, 2) 1 2 (ESC :: str "[12") [str "a  "; str "   "] in
  pending t' = [] ∨
  ∃ rest, pending t' = ESC :: rest ∧ (length rest < 7)%nat ∧
          pending t' `suffix_of` (pending (init 3 2) ++ (str "a" ++ ESC :: str "[12")).
Proof.
  apply (X15_residue_is_short_escape_tail (str "a" ++ ESC :: str "[12")
           (init 3 2)
           (mkTerminal 3 2 (1, 2) 1 2 (ESC :: str "[12")
              [str "a  "; str "   "])).
  reflexivity.
Defined.

(** ** Chunks *)

Lemma feed_raise chunks e :
  foldl (fun acc chunk => acc ≫= append chunk) (Raise e) chunks = Raise e.
Proof. induction chunks as [|c chunks IH]; [done|]. simpl. apply IH. Qed.

Lemma feed_cons chunk chunks t :
  feed (chunk :: chunks) t = t1 ← append chunk t; feed chunks t1.
Proof.
  unfold feed. simpl. destruct (append chunk t) as [t1|e]; [done|].
  simpl. apply feed_raise.
Qed.

(** X16.  Plain text may be cut into chunks anywhere: feeding the chunks
    one [append] call each gives the same result, errors included, as one
    [append] call with their concatenation. *)
Theorem X16_plain_text_chunking (chunks : list text) (t : Terminal) :
  pending t = [] → Forall (Forall plain) chunks →
  feed chunks t = append (concat chunks) t.
Proof.
  intros Hp Hall. revert t Hp.
  induction Hall as [|chunk chunks Hchunk Hall IH]; intros t Hp.
  - unfold feed, append. simpl. rewrite Hp. simpl.
    by rewrite with_pending_id.
  - rewrite feed_cons. simpl concat.
    rewrite (append_plain (chunk ++ concat chunks)), puts_app;
      [|done|apply Forall_app; split; [done|by apply Forall_concat]].
    rewrite append_plain by done.
    destruct (puts chunk true t) as [t1|e] eqn:E; [|done]. simpl.
    assert (pending t1 = []) as Hp1 by by eapply puts_keeps_pending.
    rewrite IH by done. apply append_plain; [done|].
    by apply Forall_concat.
Qed.

Lemma X16_witness :
  feed [str "ab"; str ""; str "cde"] (init 3 2) =
    append (concat [str "ab"; str ""; str "cde"]) (init 3 2).
Proof.
  apply (X16_plain_text_chunking [str "ab"; str ""; str "cde"] (init 3 2));
    [reflexivity|].
  repeat constructor; discriminate.
Defined.

Lemma first_match_none rules context t :
  Forall (fun rule => re_match rule.1 context = None) rules →
  first_match rules context t = Ok (0%nat, t).
Proof.
  induction 1 as [|[r func] rules Hr _ IH]; [done|].
  simpl in *. by rewrite Hr.
Qed.

(** X17.  A chunk that is an escape character followed by fewer than 7
    characters that no rule of the table matches is held back whole as
    residue, with no other effect; and feeding any further chunk afterwards
    gives the same result as feeding both in one call. *)
Theorem X17_short_unmatched_tail_is_deferred (s : text) (t : Terminal) :
  pending t = [] → (length s < 7)%nat →
  Forall (fun rule => re_match rule.1 s = None) control →
  append (ESC :: s) t = Ok (with_pending (ESC :: s) t) ∧
  ∀ chunk, feed [ESC :: s; chunk] t = append (ESC :: s ++ chunk) t.
Proof.
  intros Hp Hlen Hnone.
  assert (append (ESC :: s) t = Ok (with_pending (ESC :: s) t)) as Happ.
  { unfold append. rewrite Hp. simpl app. cbn [length scan].
    assert (pre (ESC :: s) 0 (with_pending [] t) =
              Ok (Some 0%nat, with_pending [] t)) as ->.
    { unfold pre.
      assert (Py.getitem (ESC :: s) (Z.of_nat 0) = Ok ESC) as ->.
      { unfold Py.getitem. by rewrite index_nonneg by (simpl; lia). }
      cbn [mbind result_bind]. rewrite Ascii.eqb_refl.
      unfold sequence. cbn [drop]. change (drop 0 s) with s.
      rewrite take_ge by lia.
      destruct s as [|c s]; [done|].
      by rewrite first_match_none by done. }
    cbn [mbind result_bind].
    rewrite bool_decide_eq_true_2 by (simpl; lia). done. }
  split; [done|]. intros chunk.
  rewrite feed_cons, Happ. simpl. unfold feed. simpl.
  unfold append. simpl. by rewrite Hp.
Qed.

Lemma X17_witness :
  append (ESC :: str "[12;3") (init 3 2) =
    Ok (with_pending (ESC :: str "[12;3") (init 3 2)) ∧
  ∀ chunk, feed [ESC :: str "[12;3"; chunk] (init 3 2) =
             append (ESC :: str "[12;3" ++ chunk) (init 3 2).
Proof.
  apply (X17_short_unmatched_tail_is_deferred (str "[12;3") (init 3 2));
    [reflexivity|simpl; lia|].
  unfold control, REGEX, SIMPLE; simpl.
  repeat apply Forall_cons_2; try apply Forall_nil_2; reflexivity.
Defined.

(** ** Sequences with numbers *)

Lemma span_digits d rest :
  forallb isdigit_char d = true →
  match rest with [] => True | x :: _ => isdigit_char x = false end →
  span isdigit_char (d ++ rest) = (d, rest).
Proof.
  intros Hd Hrest. induction d as [|c d IH]; simpl in *.
  - destruct rest as [|x rest]; [done|]. simpl. by rewrite Hrest.
  - apply andb_true_iff in Hd as [Hc Hd]. by rewrite Hc, IH.
Qed.

Lemma re_match_Lit_eq c r s :
  re_match (Lit c :: r) (c :: s) = '(m, gs) ← re_match r s; Some (c :: m, gs).
Proof. simpl. by rewrite Ascii.eqb_refl. Qed.

Lemma re_match_Lit_ne c c' r s :
  c ≠ c' → re_match (Lit c :: r) (c' :: s) = None.
Proof. intros H. simpl. by rewrite (proj2 (Ascii.eqb_neq _ _)). Qed.

Lemma re_match_Digits d rest r :
  isdigit d = true →
  match rest with [] => True | x :: _ => isdigit_char x = false end →
  re_match (Digits :: r) (d ++ rest) =
    '(m, gs) ← re_match r rest; Some (d ++ m, Some d :: gs).
Proof.
  intros Hd Hrest. cbn [re_match].
  destruct d as [|c d]; [done|].
  by rewrite span_digits.
Qed.

(** A rule [\[(\d+)X] does not match a number followed by another
    character [Y] that is not a digit. *)
Lemma letter_rule_fails X Y d rest :
  X ≠ Y → isdigit_char Y = false → isdigit d = true →
  re_match [Lit "["; Digits; Lit X] ("[" :: d ++ Y :: rest) = None.
Proof.
  intros HX HY Hd.
  rewrite re_match_Lit_eq, re_match_Digits by done.
  by rewrite re_match_Lit_ne.
Qed.

Lemma scan_skip data n : ∀ i k t,
  (n ≤ k)%nat → scan data n i k t = Ok t.
Proof.
  induction n as [|n IH]; intros i k t Hk; [done|].
  destruct k as [|k]; [lia|]. simpl. apply IH. lia.
Qed.

(** A chunk that is exactly one recognised sequence: [append] does what
    the handler [m] of the sequence does, errors included. *)
Lemma append_one_sequence s t (m : result Terminal) :
  pending t = [] →
  sequence (ESC :: s) 0 t = (t' ← m; Ok (S (length s), t')) →
  append (ESC :: s) t = m.
Proof.
  intros Hp Hseq. unfold append. rewrite with_pending_id, Hp by done.
  simpl app. cbn [length scan].
  assert (pre (ESC :: s) 0 t = (t' ← m; Ok (Some (S (length s)), t'))) as ->.
  { unfold pre.
    assert (Py.getitem (ESC :: s) (Z.of_nat 0) = Ok ESC) as ->.
    { unfold Py.getitem. by rewrite index_nonneg by (simpl; lia). }
    cbn [mbind result_bind]. rewrite Ascii.eqb_refl, Hseq. by destruct m. }
  destruct m as [t'|e]; [|done].
  cbn [mbind result_bind]. by apply scan_skip.
Qed.

(** X18.  [ESC [ n ; m r], for decimal numbers that together have at most
    6 digits, sets the scroll region to [(n, m)] as given, without any
    check against the grid or the cursor, and changes nothing else. *)
Theorem X18_set_scroll_region_sequence (d1 d2 : text) (t : Terminal) :
  pending t = [] → isdigit d1 = true → isdigit d2 = true →
  (length d1 + length d2 ≤ 6)%nat →
  append (ESC :: "[" :: d1 ++ ";" :: d2 ++ ["r"]) t =
    Ok (set_scroll (int d1) (int d2) t).
Proof.
  intros Hp Hd1 Hd2 Hlen.
  apply (append_one_sequence _ t (Ok (set_scroll (int d1) (int d2) t)));
    [done|].
  unfold sequence. cbn [drop]. rewrite take_ge
    by (simpl; rewrite length_app; simpl; rewrite length_app; simpl; lia).
  unfold control, REGEX. cbn [app first_match].
  rewrite !letter_rule_fails by done.
  assert (re_match [Lit "["; Digits; Lit ";"; Digits; OneOf ["H"; "f"]]
            ("[" :: d1 ++ ";" :: d2 ++ ["r"]) = None) as ->.
  { rewrite re_match_Lit_eq, re_match_Digits by done.
    rewrite re_match_Lit_eq, re_match_Digits by done. done. }
  assert (re_match [Lit "["; Digits; Lit ";"; Digits; Lit "r"]
            ("[" :: d1 ++ ";" :: d2 ++ ["r"]) =
          Some ("[" :: d1 ++ ";" :: d2 ++ ["r"], [Some d1; Some d2])) as ->.
  { rewrite re_match_Lit_eq, re_match_Digits by done.
    rewrite re_match_Lit_eq, re_match_Digits by done.
    by rewrite re_match_Lit_eq. }
  assert (intgroups [Some d1; Some d2] = [int d1; int d2]) as ->.
  { unfold intgroups. simpl. by rewrite Hd1, Hd2. }
  done.
Qed.

Lemma X18_witness :
  append (ESC :: "[" :: str "5" ++ ";" :: str "10" ++ ["r"]) (init 2 12) =
    Ok (set_scroll (int (str "5")) (int (str "10")) (init 2 12)).
Proof.
  apply (X18_set_scroll_region_sequence (str "5") (str "10") (init 2 12));
    [reflexivity|reflexivity|reflexivity|simpl; lia].
Defined.

Lemma semicolon_rule_fails r Y d rest :
  Y ≠ ";" → isdigit_char Y = false → isdigit d = true →
  re_match (Lit "[" :: Digits :: Lit ";" :: r) ("[" :: d ++ Y :: rest) = None.
Proof.
  intros HY HYd Hd.
  rewrite re_match_Lit_eq, re_match_Digits by done.
  by rewrite re_match_Lit_ne.
Qed.

Lemma letter_rule_matches X d :
  isdigit_char X = false → isdigit d = true →
  re_match [Lit "["; Digits; Lit X] ("[" :: d ++ [X]) =
    Some ("[" :: d ++ [X], [Some d]).
Proof.
  intros HX Hd.
  rewrite re_match_Lit_eq, re_match_Digits by done.
  by rewrite re_match_Lit_eq.
Qed.

Lemma intgroups_one d : isdigit d = true → intgroups [Some d] = [int d].
Proof. intros Hd. unfold intgroups. simpl. by rewrite Hd. Qed.

Lemma context_whole s : (length s ≤ 9)%nat → take 9 (drop 1 (ESC :: s)) = s.
Proof. intros H. cbn [drop]. change (drop 0 s) with s. by apply take_ge. Qed.

(** How the sequences with one number are dispatched. *)
Lemma counted_sequences d t :
  pending t = [] → isdigit d = true → (length d ≤ 7)%nat →
  append (ESC :: "[" :: d ++ ["A"]) t = rel (Some (- int d)) (Some 0) t ∧
  append (ESC :: "[" :: d ++ ["B"]) t = rel (Some (int d)) (Some 0) t ∧
  append (ESC :: "[" :: d ++ ["C"]) t = rel (Some 0) (Some (int d)) t ∧
  append (ESC :: "[" :: d ++ ["D"]) t = rel (Some 0) (Some (- int d)) t ∧
  append (ESC :: "[" :: d ++ ["M"]) t = del_lines (int d) None t.
Proof.
  intros Hp Hd Hlen.
  assert (∀ X, length ("[" :: d ++ [X]) ≤ 9)%nat as Hctx.
  { intros X. simpl. rewrite length_app. simpl. lia. }
  split_and!; (apply append_one_sequence; [done|]);
    unfold sequence; rewrite context_whole by done;
    unfold control, REGEX; cbn [app first_match];
    rewrite ?(letter_rule_fails "A"), ?(letter_rule_fails "B"),
      ?(letter_rule_fails "C"), ?(letter_rule_fails "D"),
      ?semicolon_rule_fails by done;
    rewrite letter_rule_matches, intgroups_one by done;
    unfold call, with_g0;
    change (Py.getitem [int d] 0) with (Ok (int d));
    cbn [mbind result_bind];
    match goal with |- _ = ?m ≫= _ => by destruct m end.
Qed.

(** X19.  [ESC [ n ; m H] and [ESC [ n ; m f], for decimal numbers that
    together have at most 6 digits, put the cursor at row [n], column [m]
    when [n] is a row of the scroll region and [m] a column of the grid,
    and change nothing else. *)
Theorem X19_absolute_position_sequence
    (d1 d2 : text) (X : ascii) (t : Terminal) (top bot : Z) :
  pending t = [] → isdigit d1 = true → isdigit d2 = true →
  (length d1 + length d2 ≤ 6)%nat → X ∈ ["H"; "f"] →
  scroll t = (top, bot) → top ≤ int d1 ≤ bot → 1 ≤ int d2 ≤ cols t →
  append (ESC :: "[" :: d1 ++ ";" :: d2 ++ [X]) t =
    Ok (with_cursor (int d1) (int d2) t).
Proof.
  intros Hp Hd1 Hd2 Hlen HX Hs Hrow Hcol.
  rewrite <- (move_inside t (int d1) (int d2) top bot) by done.
  apply append_one_sequence; [done|].
  unfold sequence. rewrite context_whole
    by (simpl; rewrite length_app; simpl; rewrite length_app; simpl; lia).
  unfold control, REGEX. cbn [app first_match].
  rewrite !letter_rule_fails by done.
  assert (re_match [Lit "["; Digits; Lit ";"; Digits; OneOf ["H"; "f"]]
            ("[" :: d1 ++ ";" :: d2 ++ [X]) =
          Some ("[" :: d1 ++ ";" :: d2 ++ [X], [Some d1; Some d2])) as ->.
  { assert (isdigit_char X = false ∧ re_match [OneOf ["H"; "f"]] [X] = Some ([X], []))
      as [HXd HXm].
    { apply elem_of_cons in HX as [->|HX]; [done|].
      apply elem_of_cons in HX as [->|HX]; [done|].
      by apply elem_of_nil in HX. }
    rewrite re_match_Lit_eq, re_match_Digits by done.
    rewrite re_match_Lit_eq, re_match_Digits by done.
    by rewrite HXm. }
  assert (intgroups [Some d1; Some d2] = [int d1; int d2]) as ->.
  { unfold intgroups. simpl. by rewrite Hd1, Hd2. }
  unfold call, with_g01.
  change (Py.getitem [int d1; int d2] 0) with (Ok (int d1)).
  change (Py.getitem [int d1; int d2] 1) with (Ok (int d2)).
  cbn [mbind result_bind].
  match goal with |- _ = ?m ≫= _ => by destruct m end.
Qed.

Lemma X19_witness :
  append (ESC :: "[" :: str "2" ++ ";" :: str "5" ++ ["H"]) (init 10 3) =
    Ok (with_cursor (int (str "2")) (int (str "5")) (init 10 3)).
Proof.
  apply (X19_absolute_position_sequence (str "2") (str "5") "H" (init 10 3) 1 3);
    [reflexivity|reflexivity|reflexivity|simpl; lia|set_solver|reflexivity
    |vm_compute; split; discriminate|vm_compute; split; discriminate].
Defined.

Lemma int_fold_nonneg d : ∀ acc,
  forallb isdigit_char d = true → 0 ≤ acc →
  0 ≤ fold_left (fun acc c => 10 * acc + (Z.of_nat (nat_of_ascii c) - 48)) d acc.
Proof.
  induction d as [|c d IH]; intros acc Hd Hacc; [done|].
  simpl in *. apply andb_true_iff in Hd as [Hc Hd].
  apply IH; [done|]. unfold isdigit_char in Hc.
  apply andb_true_iff in Hc as [Hlo _]. apply Nat.leb_le in Hlo. lia.
Qed.

(** A decimal numeral denotes a non-negative number. *)
Lemma int_nonneg d : isdigit d = true → 0 ≤ int d.
Proof.
  intros Hd. unfold int. apply int_fold_nonneg; [|done].
  by destruct d.
Qed.

Lemma or1_nonzero x : x ≠ 0 → Py.or1 x = x.
Proof. intros H. unfold Py.or1. by rewrite bool_decide_eq_false_2. Qed.

(** X20.  The cursor moves with a count, [ESC [ n A / B / C / D] with [n]
    of at most 7 digits, move the cursor [n] cells up, down, right or left
    when the target is a row of the scroll region (for up and down) or a
    column of the grid (for right and left), and change nothing else. *)
Theorem X20_counted_cursor_moves (d : text) (t : Terminal) (top bot : Z) :
  pending t = [] → isdigit d = true → (length d ≤ 7)%nat →
  scroll t = (top, bot) → 1 ≤ top → top ≤ row t ≤ bot → 1 ≤ col t ≤ cols t →
  (top ≤ row t - int d →
     append (ESC :: "[" :: d ++ ["A"]) t = Ok (with_cursor (row t - int d) (col t) t)) ∧
  (row t + int d ≤ bot →
     append (ESC :: "[" :: d ++ ["B"]) t = Ok (with_cursor (row t + int d) (col t) t)) ∧
  (col t + int d ≤ cols t →
     append (ESC :: "[" :: d ++ ["C"]) t = Ok (with_cursor (row t) (col t + int d) t)) ∧
  (1 ≤ col t - int d →
     append (ESC :: "[" :: d ++ ["D"]) t = Ok (with_cursor (row t) (col t - int d) t)).
Proof.
  intros Hp Hd Hlen Hs Htop Hrow Hcol.
  pose proof (int_nonneg d Hd) as Hn.
  destruct (counted_sequences d t Hp Hd Hlen) as (HA & HB & HC & HD & _).
  split_and!; intros Hin.
  - rewrite HA, (rel_inside t _ _ top bot);
      rewrite ?or1_nonzero by lia; try done; try lia.
    do 2 f_equal; lia.
  - rewrite HB, (rel_inside t _ _ top bot);
      rewrite ?or1_nonzero by lia; try done; try lia.
    do 2 f_equal; lia.
  - rewrite HC, (rel_inside t _ _ top bot);
      rewrite ?or1_nonzero by lia; try done; try lia.
    do 2 f_equal; lia.
  - rewrite HD, (rel_inside t _ _ top bot);
      rewrite ?or1_nonzero by lia; try done; try lia.
    do 2 f_equal; lia.
Qed.

Lemma X20_witness :
  let t := mkTerminal 10 5 (1, 5) 3 4 [] (buf (init 10 5)) in
  let d := str "2" in
  (1 ≤ row t - int d →
     append (ESC :: "[" :: d ++ ["A"]) t = Ok (with_cursor (row t - int d) (col t) t)) ∧
  (row t + int d ≤ 5 →
     append (ESC :: "[" :: d ++ ["B"]) t = Ok (with_cursor (row t + int d) (col t) t)) ∧
  (col t + int d ≤ cols t →
     append (ESC :: "[" :: d ++ ["C"]) t = Ok (with_cursor (row t) (col t + int d) t)) ∧
  (1 ≤ col t - int d →
     append (ESC :: "[" :: d ++ ["D"]) t = Ok (with_cursor (row t) (col t - int d) t)).
Proof.
  apply (X20_counted_cursor_moves (str "2")
           (mkTerminal 10 5 (1, 5) 3 4 [] (buf (init 10 5))) 1 5);
    [reflexivity|reflexivity|simpl; lia|reflexivity|lia|simpl; lia|simpl; lia].
Defined.

(** X21.  The two line-delete sequences act on different rows:
    [ESC [ n M], with [n] of at most 7 digits, is [del_lines(n)] at the
    cursor row, while the plain [ESC [ M] is [del_lines(1)] at the row
    BELOW the cursor; errors included in both cases. *)
Theorem X21_line_delete_sequences (d : text) (t : Terminal) :
  pending t = [] → isdigit d = true → (length d ≤ 7)%nat →
  append (ESC :: "[" :: d ++ ["M"]) t = del_lines (int d) (Some (row t)) t ∧
  append (ESC :: str "[M") t = del_lines 1 (Some (row t + 1)) t.
Proof.
  intros Hp Hd Hlen. split.
  - destruct (counted_sequences d t Hp Hd Hlen) as (_ & _ & _ & _ & ->).
    done.
  - apply append_one_sequence; [done|].
    cbv -[del_lines Z.add row]. by destruct (del_lines _ _ t).
Qed.

Lemma X21_witness :
  let t := mkTerminal 1 4 (1, 4) 2 1 [] [str "a"; str "b"; str "c"; str "d"] in
  append (ESC :: "[" :: str "1" ++ ["M"]) t = del_lines (int (str "1")) (Some (row t)) t ∧
  append (ESC :: str "[M") t = del_lines 1 (Some (row t + 1)) t.
Proof.
  apply (X21_line_delete_sequences (str "1")
           (mkTerminal 1 4 (1, 4) 2 1 [] [str "a"; str "b"; str "c"; str "d"]));
    [reflexivity|reflexivity|simpl; lia].
Defined.

(** ** Erasing to the end of the screen *)

Lemma append_erase_eos t :
  pending t = [] →
  append (ESC :: str "[0?J") t = erase (row t, col t) (rows t, cols t) t.
Proof.
  intros Hp. apply append_one_sequence; [done|].
  cbv -[erase row col rows cols]. by destruct (erase _ _ t).
Qed.

(** X22.  [ESC [ 0 ? J] with the cursor on a grid cell at or below the top
    of a scroll region that reaches the last row blanks the rectangle from
    the cursor row and column up to, but not including, the last row and
    the last column: no cell of the last row or of the last column is
    blanked, every cell outside the rectangle keeps its content, and the
    cursor is where it was. *)
Theorem X22_erase_to_end_of_screen_gap (cs rs top bot : Z) (t : Terminal) :
  grid_ok cs rs t → pending t = [] → scroll t = (top, bot) →
  top ≤ row t → rs ≤ bot + 1 → 1 ≤ row t → 1 ≤ col t →
  ∃ t', append (ESC :: str "[0?J") t = Ok t' ∧
        row t' = row t ∧ col t' = col t ∧
        ∀ r c, 1 ≤ r → 1 ≤ c →
          cell t' r c =
            if bool_decide (row t ≤ r < rs ∧ col t ≤ c < cs)
            then Some SP else cell t r c.
Proof.
  intros Hok Hp Hs Htop Hbot Hrow Hcol.
  rewrite append_erase_eos by done.
  pose proof Hok as (Hcs & Hrs & _). rewrite Hcs, Hrs.
  destruct (erase_spec cs rs top bot t (row t) (col t) rs cs)
    as (t' & Hrun & _ & _ & Hr & Hc & Hcells);
    [done|done|lia|lia|lia|lia|lia|lia|lia|].
  by exists t'.
Qed.

Lemma X22_witness :
  let t := mkTerminal 3 3 (1, 3) 1 2 [] [str "abc"; str "def"; str "ghi"] in
  ∃ t', append (ESC :: str "[0?J") t = Ok t' ∧
        row t' = row t ∧ col t' = col t ∧
        ∀ r c, 1 ≤ r → 1 ≤ c →
          cell t' r c =
            if bool_decide (row t ≤ r < 3 ∧ col t ≤ c < 3)
            then Some SP else cell t r c.
Proof.
  apply (X22_erase_to_end_of_screen_gap 3 3 1 3
           (mkTerminal 3 3 (1, 3) 1 2 [] [str "abc"; str "def"; str "ghi"]));
    [concrete_grid|reflexivity|reflexivity|simpl; lia..].
Defined.

(** ** Writing into the last cell *)

Lemma move_wrap_eq r c t :
  c = cols t + 1 → 1 ≤ cols t →
  move (Some r) (Some c) false t = move (Some (r + 1)) (Some 1) false t.
Proof.
  intros -> Hc. unfold move. simpl.
  rewrite (bool_decide_eq_true_2 (cols t + 1 > cols t)) by lia.
  by rewrite (bool_decide_eq_false_2 (1 > cols t)) by lia.
Qed.

(** X23.  With the default scroll region and the cursor on the last cell
    of the last row, a plain character is lost as soon as it is written:
    the advance of the cursor scrolls, which blanks the whole last row and
    leaves the rows above as they are; the cursor ends at column 1 of the
    last row. *)
Theorem X23_last_cell_write_is_lost (cs rs : Z) (t : Terminal) (ch : ascii) :
  grid_ok cs rs t → pending t = [] → scroll t = (1, rs) →
  1 ≤ rs → 1 ≤ cs → row t = rs → col t = cs → plain ch →
  append [ch] t =
    Ok (with_cursor rs 1
          (with_buf (take (Z.to_nat (rs - 1)) (buf t) ++ [blank_line t]) t)).
Proof.
  intros Hok Hp Hs Hrs Hcs Hrow Hcol Hplain.
  pose proof Hok as (Hcols & _ & Hlen & _).
  rewrite append_plain by (done || by constructor).
  rewrite (puts_char cs rs) by (done || lia). cbv zeta.
  set (t1 := with_buf _ t).
  rewrite (move_wrap_eq (row t) (col t + 1) t1) by (simpl; lia).
  rewrite (move_past_bottom_default cs rs t1)
    by (done || simpl; lia || by apply set_cell_ok).
  unfold t1, with_cursor, with_buf, blank_line. simpl. do 2 f_equal.
  unfold set_cell.
  destruct (buf t !! Z.to_nat (row t - 1)) as [line|]; [|done].
  f_equal. apply take_insert_ge. lia.
Qed.

Lemma X23_witness :
  let t := mkTerminal 2 2 (1, 2) 2 2 [] [str "ab"; str "c "] in
  append ["d"] t =
    Ok (with_cursor 2 1
          (with_buf (take (Z.to_nat (2 - 1)) (buf t) ++ [blank_line t]) t)).
Proof.
  apply (X23_last_cell_write_is_lost 2 2
           (mkTerminal 2 2 (1, 2) 2 2 [] [str "ab"; str "c "]) "d");
    [concrete_grid|reflexivity|reflexivity|lia|lia|reflexivity|reflexivity|].
  repeat split; discriminate.
Defined.
